(** * RemoteMongoCollection: request encoding and response decoding

    A shallow embedding of [src/sync/remote_mongo_collection.cpp]: the
    thirteen collection operations build a JSON argument document, hand it
    to the function-invocation service, and decode the service's reply for
    the caller's completion block.

    C++ exceptions are modelled by the [result] monad, [std::map] by
    stdpp's [gmap], fixed-width integers by [Z] with explicit wrap-around,
    and completion blocks and service calls by a trace of [event]s. *)

From stdpp Require Import gmap strings list fin_maps.
From Stdlib Require Import ZArith String Ascii.

Set Warnings "-register-all".
Set Default Proof Using "Type*".

Open Scope Z_scope.

(** ** Exceptions

    Every exception the translation unit can meet derives from
    [std::exception], and every [catch] clause in it catches exactly
    [const std::exception&]. *)

Inductive exception : Type :=
| parse_error (text : string)   (* nlohmann::json::parse on malformed text *)
| type_error                    (* nlohmann: at / get / push_back on the wrong kind of value *)
| key_not_found (key : string)  (* nlohmann out_of_range: at(key) on an object without key *)
| invalid_argument              (* std::stoi, std::stoull: no digits to convert *)
| out_of_range                  (* std::stoi, std::stoull: converted value does not fit *)
| bad_optional_access.          (* util::Optional<T>::value() on a disengaged optional *)

Inductive result (A : Type) : Type :=
| Ok (a : A)
| Throw (e : exception).

Arguments Ok {A} a.
Arguments Throw {A} e.

Definition bind {A B : Type} (r : result A) (k : A -> result B) : result B :=
  match r with
  | Ok a => k a
  | Throw e => Throw e
  end.

Notation "'let*' x ':=' r 'in' k" := (bind r (fun x => k))
  (at level 10, x name, r at level 100, k at level 200).

(** [try { body } catch (const std::exception& e) { handler }] *)
Definition try_catch {A : Type} (body : result A) (handler : exception -> A) : A :=
  match body with
  | Ok a => a
  | Throw e => handler e
  end.

(** [util::Optional<T>::value()]: realm-core throws [BadOptionalAccess]
    (a [std::logic_error]) when the optional is disengaged. *)
Definition value {A : Type} (o : option A) : result A :=
  match o with
  | Some a => Ok a
  | None => Throw bad_optional_access
  end.

(** ** Fixed-width integers *)

Definition INT_MIN : Z := - 2 ^ 31.
Definition INT_MAX : Z := 2 ^ 31 - 1.
Definition ULLONG_MAX : Z := 2 ^ 64 - 1.

(** Conversion of an [int] (or any integer) to [uint64_t]. *)
Definition to_uint64 (z : Z) : Z := z mod 2 ^ 64.

(** Reduction of a mathematical integer to the two's-complement [int]
    holding it; [i++] on an [int] is [to_int (i + 1)]. *)
Definition to_int (z : Z) : Z := (z + 2 ^ 31) mod 2 ^ 32 - 2 ^ 31.

(** ** std::stoi and std::stoull

    Both skip leading white space, accept one optional sign, then read the
    longest run of decimal digits and ignore whatever follows. *)

Definition isspace (c : ascii) : bool :=
  let n := Z.of_nat (nat_of_ascii c) in
  (n =? 32) || ((9 <=? n) && (n <=? 13)).

Fixpoint skip_space (s : string) : string :=
  match s with
  | String c r => if isspace c then skip_space r else s
  | EmptyString => s
  end.

Definition digit_value (c : ascii) : option Z :=
  let n := Z.of_nat (nat_of_ascii c) in
  if (48 <=? n) && (n <=? 57) then Some (n - 48) else None.

(** The digits of [s] read into [acc]; [None] when there is no digit at
    all ([seen] records that one was consumed). *)
Fixpoint read_digits (s : string) (acc : Z) (seen : bool) : option Z :=
  match s with
  | String c r =>
      match digit_value c with
      | Some d => read_digits r (10 * acc + d) true
      | None => if seen then Some acc else None
      end
  | EmptyString => if seen then Some acc else None
  end.

(** Sign and magnitude of the number at the head of [s]. *)
Definition read_number (s : string) : option (bool * Z) :=
  match skip_space s with
  | String "-"%char r => pair true <$> read_digits r 0 false
  | String "+"%char r => pair false <$> read_digits r 0 false
  | s' => pair false <$> read_digits s' 0 false
  end.

Definition stoi (s : string) : result Z :=
  match read_number s with
  | None => Throw invalid_argument
  | Some (neg, m) =>
      let v := if neg : bool then - m else m in
      if (INT_MIN <=? v) && (v <=? INT_MAX) then Ok v else Throw out_of_range
  end.

(** [strtoull] negates in unsigned arithmetic when a minus sign was read. *)
Definition stoull (s : string) : result Z :=
  match read_number s with
  | None => Throw invalid_argument
  | Some (neg, m) =>
      if m <=? ULLONG_MAX
      then Ok (if neg : bool then to_uint64 (- m) else m)
      else Throw out_of_range
  end.

(** ** nlohmann::json values *)

Inductive json : Type :=
| JNull
| JBool (b : bool)
| JInt (z : Z)                      (* number_integer *)
| JUInt (z : Z)                     (* number_unsigned *)
| JFloat (bits : Z)                 (* number_float, as its binary64 bit pattern *)
| JString (s : string)
| JArray (l : list json)
| JObject (o : gmap string json).   (* std::map<std::string, json> *)

(** [std::map::insert]: an existing key keeps its value. *)
Definition map_insert `{Countable K} {V : Type} (k : K) (v : V) (m : gmap K V) : gmap K V :=
  match m !! k with
  | Some _ => m
  | None => <[k := v]> m
  end.

(** [j.push_back({key, v})] with a string key: inserts into an object;
    otherwise the two-element initializer list is itself a value (the
    array [[key, v]]) appended to an array or to null. *)
Definition push_back (j : json) (key : string) (v : json) : result json :=
  match j with
  | JObject o => Ok (JObject (map_insert key v o))
  | JArray l => Ok (JArray (l ++ [JArray [JString key; v]]))
  | JNull => Ok (JArray [JArray [JString key; v]])
  | _ => Throw type_error
  end.

(** [j.at(key)] *)
Definition json_at (j : json) (key : string) : result json :=
  match j with
  | JObject o =>
      match o !! key with
      | Some v => Ok v
      | None => Throw (key_not_found key)
      end
  | _ => Throw type_error
  end.

(** [j.find(key)], [None] standing for [j.end()]. *)
Definition json_find (j : json) (key : string) : option json :=
  match j with
  | JObject o => o !! key
  | _ => None
  end.

(** [j.get<std::string>()] *)
Definition get_string (j : json) : result string :=
  match j with
  | JString s => Ok s
  | _ => Throw type_error
  end.

(** [j.get<std::vector<nlohmann::json>>()] *)
Definition get_vector (j : json) : result (list json) :=
  match j with
  | JArray l => Ok l
  | _ => Throw type_error
  end.

(** The string under [field] and then [wrapper], as in
    [j.at(field).at(wrapper).get<std::string>()]. *)
Definition read_wrapped (j : json) (field wrapper : string) : result string :=
  let* f := json_at j field in
  let* w := json_at f wrapper in
  get_string w.

(** The value of a string made of decimal digits only, and of at least
    one. *)
Fixpoint decimal_from (s : string) (acc : Z) : option Z :=
  match s with
  | EmptyString => Some acc
  | String c r =>
      match digit_value c with
      | Some d => decimal_from r (10 * acc + d)
      | None => None
      end
  end.

Definition decimal (s : string) : option Z :=
  match s with
  | EmptyString => None
  | _ => decimal_from s 0
  end.

(** ** Errors, options and results *)

(** Modelled from the spec: [AppError] and its error codes are declared
    outside the two source files.  An error is a kind and a message; the
    kind is either the local malformed-JSON failure or an opaque code
    reported by the service. *)
Inductive error_code : Type :=
| malformed_json                                (* JSONErrorCode::malformed_json *)
| service_error (category : string) (code : Z).

Record AppError : Type := mkAppError {
  code : error_code;
  message : string
}.

(** Modelled from the spec: [RemoteFindOptions] is declared in
    [remote_mongo_read_operation.hpp], which is not among the sources. *)
Module RemoteFindOptions.
Record t : Type := mk {
  limit : option Z;
  projection_json : option string;
  sort_json : option string
}.
End RemoteFindOptions.

(** Modelled from the spec: [RemoteFindOneAndModifyOptions]; the source
    tests [upsert] and [return_new_document] as plain booleans and stores
    them as such. *)
Module RemoteFindOneAndModifyOptions.
Record t : Type := mk {
  projection_json : option string;
  sort_json : option string;
  upsert : bool;
  return_new_document : bool
}.
End RemoteFindOneAndModifyOptions.

(** Modelled from the spec: [RemoteUpdateResult], with 64-bit unsigned
    counts, is declared in [remote_mongo_result_types.hpp]. *)
Record RemoteUpdateResult : Type := mkRemoteUpdateResult {
  matched_count : Z;
  modified_count : Z;
  upserted_id : string
}.

(** Value-initialised arguments ([{}]) of the option and result types. *)
Definition no_find_options : RemoteFindOptions.t :=
  RemoteFindOptions.mk None None None.
Definition no_modify_options : RemoteFindOneAndModifyOptions.t :=
  RemoteFindOneAndModifyOptions.mk None None false false.
Definition empty_update_result : RemoteUpdateResult :=
  mkRemoteUpdateResult 0 0 "".

(** ** Collaborators

    The JSON text parser and printer, the diagnostic text of an exception
    ([e.what()]) and the service behind [m_service->call_function] are
    outside this unit.  The service is taken with its contract: it answers
    each call once, with an optional error and an optional payload.  The
    printer is taken to succeed on every document the operations build. *)
Class Collaborators : Type := {
  parse_text : string -> option json;
  dump : json -> string;
  what : exception -> string;
  m_service : string -> string -> option AppError * option string
}.

(** What a call of an operation does, in order. *)
Inductive event (R : Type) : Type :=
| call_function (name args : string)
| completion_block (r : R) (error : option AppError).

Arguments call_function {R} name args.
Arguments completion_block {R} r error.

(** The collection: its two immutable names. *)
Record RemoteMongoCollection : Type := mkRemoteMongoCollection {
  name : string;
  database_name : string
}.

Section Operations.
Context {env : Collaborators}.

(** [nlohmann::json::parse(text)] *)
Definition parse (text : string) : result json :=
  match parse_text text with
  | Some j => Ok j
  | None => Throw (parse_error text)
  end.

(** [AppError(make_error_code(JSONErrorCode::malformed_json), e.what())] *)
Definition malformed (e : exception) : option AppError :=
  Some (mkAppError malformed_json (what e)).

(** ** Response decoders

    Each decoder returns the pair of arguments with which it invokes the
    completion block; every path of the source invokes it once. *)

Definition handle_response (error : option AppError) (value : option string)
  : string * option AppError :=
  match value, error with
  | Some v, None => (v, error)
  | _, _ => ("", error)
  end.

Definition handle_count_response (error : option AppError) (value : option string)
  : Z * option AppError :=
  match value, error with
  | Some v, None =>
      try_catch
        (let* json := parse v in
         let* count := json_at json "$numberLong" in
         let* count_string := get_string count in
         let* n := stoi count_string in
         Ok (to_uint64 n, error))
        (fun e => (0, malformed e))
  | _, _ => (0, error)
  end.

Definition handle_delete_count_response (error : option AppError) (value : option string)
  : Z * option AppError :=
  match value, error with
  | Some v, None =>
      try_catch
        (let* json := parse v in
         let* deleted := json_at json "deletedCount" in
         let* count := json_at deleted "$numberInt" in
         let* count_string := get_string count in
         let* n := stoi count_string in
         Ok (to_uint64 n, error))
        (fun e => (0, malformed e))
  | _, _ => (0, error)
  end.

Definition handle_update_response (error : option AppError) (value : option string)
  : RemoteUpdateResult * option AppError :=
  match value, error with
  | Some v, None =>
      try_catch
        (let* json := parse v in
         let* matched := json_at json "matchedCount" in
         let* matched_int := json_at matched "$numberInt" in
         let* matched_count_string := get_string matched_int in
         let* matched_count := stoull matched_count_string in
         let* modified := json_at json "modifiedCount" in
         let* modified_int := json_at modified "$numberInt" in
         let* modified_count_string := get_string modified_int in
         let* modified_count := stoull modified_count_string in
         let* upserted_id :=
           match json_find json "upsertedId" with
           | Some _ =>
               let* upserted := json_at json "upsertedId" in
               let* oid := json_at upserted "$oid" in
               get_string oid
           | None => Ok ""
           end in
         Ok (mkRemoteUpdateResult matched_count modified_count upserted_id, error))
        (fun e => (empty_update_result, malformed e))
  | _, _ => (empty_update_result, error)
  end.

(** The loop of the [insertMany] completion: [i] is an [int] counted up
    from the caller's value, and each key is [i] converted to [uint64_t]. *)
Fixpoint map_oids (inserted_ids : list json) (mapped_oids : gmap Z string) (i : Z)
  : result (gmap Z string) :=
  match inserted_ids with
  | [] => Ok mapped_oids
  | inserted_id :: rest =>
      let* oid_json := json_at inserted_id "$oid" in
      let* oid := get_string oid_json in
      map_oids rest (map_insert (to_uint64 i) oid mapped_oids) (to_int (i + 1))
  end.

(** The completion lambda passed to the service by [insert_many]. *)
Definition insert_many_response (error : option AppError) (value : option string)
  : gmap Z string * option AppError :=
  match value, error with
  | Some v, None =>
      try_catch
        (let* json := parse v in
         let* ids := json_at json "insertedIds" in
         let* inserted_ids := get_vector ids in
         let* mapped_oids := map_oids inserted_ids ∅ 0 in
         Ok (mapped_oids, error))
        (fun e => (∅, malformed e))
  | _, _ => (∅, error)
  end.

(** The completion lambda passed to the service by [find_one_and_delete]:
    the payload is dropped. *)
Definition find_one_and_delete_response (error : option AppError) (value : option string)
  : unit * option AppError :=
  (tt, error).

(** ** Argument documents *)

(** [m_base_operation_args], initialised from the two names. *)
Definition m_base_operation_args (self : RemoteMongoCollection) : json :=
  JObject (map_insert "collection" (JString (name self))
             (map_insert "database" (JString (database_name self)) ∅)).

(** [nlohmann::json({{"arguments", nlohmann::json::array({base_args})}})] *)
Definition arguments (base_args : json) : json :=
  JObject {["arguments" := JArray [base_args]]}.

(** [m_service->call_function(name, args, completion)]: the call, then
    the completion block with what the decoder makes of the answer. *)
Definition invoke {R : Type} (name args : string)
    (decode : option AppError -> option string -> R * option AppError)
  : list (event R) :=
  let '(error, value) := m_service name args in
  let '(r, e) := decode error value in
  [call_function name args; completion_block r e].

(** The [catch] clause of every operation: the completion block alone,
    with the operation's empty result. *)
Definition complete_malformed {R : Type} (zero : R) (e : exception) : list (event R) :=
  [completion_block zero (malformed e)].

Section Collection.
Variable self : RemoteMongoCollection.

Definition find_args (filter_json : string) (options : RemoteFindOptions.t)
  : result json :=
  let base_args := m_base_operation_args self in
  let* query := parse filter_json in
  let* base_args := push_back base_args "query" query in
  let args := arguments base_args in
  let* args :=
    match RemoteFindOptions.limit options with
    | Some l => push_back args "limit" (JInt l)
    | None => Ok args
    end in
  let* args :=
    match RemoteFindOptions.projection_json options with
    | Some projection =>
        let* project := parse projection in
        push_back args "project" project
    | None => Ok args
    end in
  let* args :=
    match RemoteFindOptions.projection_json options with
    | Some _ =>
        let* sort_text := value (RemoteFindOptions.sort_json options) in
        let* sort := parse sort_text in
        push_back args "sort" sort
    | None => Ok args
    end in
  Ok args.

Definition find (filter_json : string) (options : RemoteFindOptions.t)
  : list (event string) :=
  try_catch
    (let* args := find_args filter_json options in
     Ok (invoke "find" (dump args) handle_response))
    (complete_malformed "").

Definition find_one_args (filter_json : string) (options : RemoteFindOptions.t)
  : result json :=
  let base_args := m_base_operation_args self in
  let* query := parse filter_json in
  let* base_args := push_back base_args "query" query in
  let args := arguments base_args in
  let* args :=
    match RemoteFindOptions.limit options with
    | Some l => push_back args "limit" (JInt l)
    | None => Ok args
    end in
  let* args :=
    match RemoteFindOptions.projection_json options with
    | Some projection =>
        let* project := parse projection in
        push_back args "project" project
    | None => Ok args
    end in
  let* args :=
    match RemoteFindOptions.projection_json options with
    | Some _ =>
        let* sort_text := value (RemoteFindOptions.sort_json options) in
        let* sort := parse sort_text in
        push_back args "sort" sort
    | None => Ok args
    end in
  Ok args.

Definition find_one (filter_json : string) (options : RemoteFindOptions.t)
  : list (event string) :=
  try_catch
    (let* args := find_one_args filter_json options in
     Ok (invoke "findOne" (dump args) handle_response))
    (complete_malformed "").

Definition insert_one_args (value_json : string) : result json :=
  let base_args := m_base_operation_args self in
  let* document := parse value_json in
  let* base_args := push_back base_args "document" document in
  Ok (arguments base_args).

Definition insert_one (value_json : string) : list (event string) :=
  try_catch
    (let* args := insert_one_args value_json in
     Ok (invoke "insertOne" (dump args) handle_response))
    (complete_malformed "").

(** The loops of [aggregate] and [insert_many]: parse each text and
    append it to the array. *)
Fixpoint parse_each (texts : list string) (array : list json) : result (list json) :=
  match texts with
  | [] => Ok array
  | text :: rest =>
      let* j := parse text in
      parse_each rest (array ++ [j])
  end.

Definition aggregate_args (pipline : list string) : result json :=
  let* pipelines := parse_each pipline [] in
  let base_args := m_base_operation_args self in
  let* base_args := push_back base_args "pipeline" (JArray pipelines) in
  Ok (arguments base_args).

Definition aggregate (pipline : list string) : list (event string) :=
  try_catch
    (let* args := aggregate_args pipline in
     Ok (invoke "aggregate" (dump args) handle_response))
    (complete_malformed "").

(** In [count], the limit is pushed onto [base_args] after [args] was
    built from it, and [args] is what is dumped. *)
Definition count_args (filter_json : string) (limit : Z) : result json :=
  let base_args := m_base_operation_args self in
  let* query := parse filter_json in
  let* base_args := push_back base_args "query" query in
  let args := arguments base_args in
  let* base_args := push_back base_args "limit" (JUInt limit) in
  Ok args.

Definition count (filter_json : string) (limit : Z) : list (event Z) :=
  try_catch
    (let* args := count_args filter_json limit in
     Ok (invoke "count" (dump args) handle_count_response))
    (complete_malformed 0).

Definition insert_many_args (documents : list string) : result json :=
  let* documents_array := parse_each documents [] in
  let base_args := m_base_operation_args self in
  let* base_args := push_back base_args "documents" (JArray documents_array) in
  Ok (arguments base_args).

Definition insert_many (documents : list string) : list (event (gmap Z string)) :=
  try_catch
    (let* args := insert_many_args documents in
     Ok (invoke "insertMany" (dump args) insert_many_response))
    (complete_malformed ∅).

Definition delete_one_args (filter_json : string) : result json :=
  let base_args := m_base_operation_args self in
  let* query := parse filter_json in
  let* base_args := push_back base_args "query" query in
  Ok (arguments base_args).

Definition delete_one (filter_json : string) : list (event Z) :=
  try_catch
    (let* args := delete_one_args filter_json in
     Ok (invoke "deleteOne" (dump args) handle_delete_count_response))
    (complete_malformed 0).

Definition delete_many_args (filter_json : string) : result json :=
  let base_args := m_base_operation_args self in
  let* query := parse filter_json in
  let* base_args := push_back base_args "query" query in
  Ok (arguments base_args).

Definition delete_many (filter_json : string) : list (event Z) :=
  try_catch
    (let* args := delete_many_args filter_json in
     Ok (invoke "deleteMany" (dump args) handle_delete_count_response))
    (complete_malformed 0).

Definition update_one_args (filter_json update_json : string) (upsert : bool)
  : result json :=
  let base_args := m_base_operation_args self in
  let* query := parse filter_json in
  let* base_args := push_back base_args "query" query in
  let* update := parse update_json in
  let* base_args := push_back base_args "update" update in
  let* base_args := push_back base_args "upsert" (JBool upsert) in
  Ok (arguments base_args).

Definition update_one (filter_json update_json : string) (upsert : bool)
  : list (event RemoteUpdateResult) :=
  try_catch
    (let* args := update_one_args filter_json update_json upsert in
     Ok (invoke "updateOne" (dump args) handle_update_response))
    (complete_malformed empty_update_result).

Definition update_many_args (filter_json update_json : string) (upsert : bool)
  : result json :=
  let base_args := m_base_operation_args self in
  let* query := parse filter_json in
  let* base_args := push_back base_args "query" query in
  let* update := parse update_json in
  let* base_args := push_back base_args "update" update in
  let args := arguments base_args in
  let* args := push_back args "upsert" (JBool upsert) in
  Ok args.

Definition update_many (filter_json update_json : string) (upsert : bool)
  : list (event RemoteUpdateResult) :=
  try_catch
    (let* args := update_many_args filter_json update_json upsert in
     Ok (invoke "updateMany" (dump args) handle_update_response))
    (complete_malformed empty_update_result).

Definition find_one_and_update_args (filter_json update_json : string)
    (options : RemoteFindOneAndModifyOptions.t) : result json :=
  let base_args := m_base_operation_args self in
  let* query := parse filter_json in
  let* base_args := push_back base_args "query" query in
  let* update := parse update_json in
  let* base_args := push_back base_args "update" update in
  let* base_args :=
    if RemoteFindOneAndModifyOptions.upsert options
    then push_back base_args "upsert"
           (JBool (RemoteFindOneAndModifyOptions.upsert options))
    else Ok base_args in
  let* base_args :=
    if RemoteFindOneAndModifyOptions.return_new_document options
    then push_back base_args "returnNewDocument"
           (JBool (RemoteFindOneAndModifyOptions.return_new_document options))
    else Ok base_args in
  let* base_args :=
    match RemoteFindOneAndModifyOptions.projection_json options with
    | Some projection =>
        let* project := parse projection in
        push_back base_args "project" project
    | None => Ok base_args
    end in
  let* base_args :=
    match RemoteFindOneAndModifyOptions.projection_json options with
    | Some _ =>
        let* sort_text := value (RemoteFindOneAndModifyOptions.sort_json options) in
        let* sort := parse sort_text in
        push_back base_args "sort" sort
    | None => Ok base_args
    end in
  Ok (arguments base_args).

Definition find_one_and_update (filter_json update_json : string)
    (options : RemoteFindOneAndModifyOptions.t) : list (event string) :=
  try_catch
    (let* args := find_one_and_update_args filter_json update_json options in
     Ok (invoke "findOneAndUpdate" (dump args) handle_response))
    (complete_malformed "").

Definition find_one_and_replace_args (filter_json replacement_json : string)
    (options : RemoteFindOneAndModifyOptions.t) : result json :=
  let base_args := m_base_operation_args self in
  let* query := parse filter_json in
  let* base_args := push_back base_args "query" query in
  let* update := parse replacement_json in
  let* base_args := push_back base_args "update" update in
  let args := arguments base_args in
  let* args :=
    if RemoteFindOneAndModifyOptions.upsert options
    then push_back args "upsert"
           (JBool (RemoteFindOneAndModifyOptions.upsert options))
    else Ok args in
  let* args :=
    if RemoteFindOneAndModifyOptions.return_new_document options
    then push_back args "returnNewDocument"
           (JBool (RemoteFindOneAndModifyOptions.return_new_document options))
    else Ok args in
  let* args :=
    match RemoteFindOneAndModifyOptions.projection_json options with
    | Some projection =>
        let* project := parse projection in
        push_back args "project" project
    | None => Ok args
    end in
  let* args :=
    match RemoteFindOneAndModifyOptions.projection_json options with
    | Some _ =>
        let* sort_text := value (RemoteFindOneAndModifyOptions.sort_json options) in
        let* sort := parse sort_text in
        push_back args "sort" sort
    | None => Ok args
    end in
  Ok args.

Definition find_one_and_replace (filter_json replacement_json : string)
    (options : RemoteFindOneAndModifyOptions.t) : list (event string) :=
  try_catch
    (let* args := find_one_and_replace_args filter_json replacement_json options in
     Ok (invoke "findOneAndReplace" (dump args) handle_response))
    (complete_malformed "").

Definition find_one_and_delete_args (filter_json : string)
    (options : RemoteFindOneAndModifyOptions.t) : result json :=
  let base_args := m_base_operation_args self in
  let* query := parse filter_json in
  let* base_args := push_back base_args "query" query in
  let args := arguments base_args in
  let* args :=
    if RemoteFindOneAndModifyOptions.upsert options
    then push_back args "upsert"
           (JBool (RemoteFindOneAndModifyOptions.upsert options))
    else Ok args in
  let* args :=
    if RemoteFindOneAndModifyOptions.return_new_document options
    then push_back args "returnNewDocument"
           (JBool (RemoteFindOneAndModifyOptions.return_new_document options))
    else Ok args in
  let* args :=
    match RemoteFindOneAndModifyOptions.projection_json options with
    | Some projection =>
        let* project := parse projection in
        push_back args "project" project
    | None => Ok args
    end in
  let* args :=
    match RemoteFindOneAndModifyOptions.projection_json options with
    | Some _ =>
        let* sort_text := value (RemoteFindOneAndModifyOptions.sort_json options) in
        let* sort := parse sort_text in
        push_back args "sort" sort
    | None => Ok args
    end in
  Ok args.

(** The completion block of [find_one_and_delete] takes the error only. *)
Definition find_one_and_delete (filter_json : string)
    (options : RemoteFindOneAndModifyOptions.t) : list (event unit) :=
  try_catch
    (let* args := find_one_and_delete_args filter_json options in
     Ok (invoke "findOneAndDelete" (dump args) find_one_and_delete_response))
    (complete_malformed tt).

(** ** Overloads without options: each delegates with [{}]. *)

Definition find_default (filter_json : string) : list (event string) :=
  find filter_json no_find_options.
Definition find_one_default (filter_json : string) : list (event string) :=
  find_one filter_json no_find_options.
Definition count_default (filter_json : string) : list (event Z) :=
  count filter_json 0.
Definition update_one_default (filter_json update_json : string)
  : list (event RemoteUpdateResult) :=
  update_one filter_json update_json false.
Definition update_many_default (filter_json update_json : string)
  : list (event RemoteUpdateResult) :=
  update_many filter_json update_json false.
Definition find_one_and_update_default (filter_json update_json : string)
  : list (event string) :=
  find_one_and_update filter_json update_json no_modify_options.
Definition find_one_and_replace_default (filter_json replacement_json : string)
  : list (event string) :=
  find_one_and_replace filter_json replacement_json no_modify_options.
Definition find_one_and_delete_default (filter_json : string) : list (event unit) :=
  find_one_and_delete filter_json no_modify_options.

End Collection.

(** ** Reading an argument document

    The outgoing document is [{"arguments": [element], ...}]: a field is
    either on the outer envelope or inside the single element. *)

Definition outer_field (key : string) (args : json) : option json :=
  json_find args key.

Definition element_of (args : json) : option json :=
  match json_find args "arguments" with
  | Some (JArray [element]) => Some element
  | _ => None
  end.

Definition element_field (key : string) (args : json) : option json :=
  match element_of args with
  | Some element => json_find element key
  | None => None
  end.

(** The field [key] as the outgoing document carries it, at either place. *)
Definition document_field (key : string) (args : json) : option json :=
  match outer_field key args with
  | Some v => Some v
  | None => element_field key args
  end.

End Operations.

(** ** A concrete set of collaborators

    A reader and a printer for the fragment of JSON without escapes and
    fractions, and a service that answers by function name.  They
    instantiate [Collaborators] wherever a statement is run on concrete
    texts.  The printer lists the members of an object in the order of
    the map's own enumeration. *)
Module Sample.

Definition quoted (s : string) : string :=
  String "034"%char (s +:+ String "034"%char EmptyString).

(** [{"k": v}] as text, for a key [k] and the text [v] of a value. *)
Definition field_text (k v : string) : string :=
  "{" +:+ quoted k +:+ ":" +:+ v +:+ "}".

Fixpoint read_string (s acc : string) : option (string * string) :=
  match s with
  | EmptyString => None
  | String "034"%char r => Some (acc, r)
  | String "\"%char _ => None
  | String c r => read_string r (acc +:+ String c EmptyString)
  end.

Fixpoint read_digits_rest (s : string) (acc : Z) (seen : bool) : option (Z * string) :=
  match s with
  | String c r =>
      match digit_value c with
      | Some d => read_digits_rest r (10 * acc + d) true
      | None => if seen then Some (acc, s) else None
      end
  | EmptyString => if seen then Some (acc, s) else None
  end.

Fixpoint read_value (fuel : nat) (s : string) : option (json * string) :=
  match fuel with
  | O => None
  | S fuel =>
      match skip_space s with
      | String "{"%char r =>
          match skip_space r with
          | String "}"%char r' => Some (JObject ∅, r')
          | members =>
              (fix read_members (n : nat) (o : gmap string json) (s : string)
                 {struct n} : option (json * string) :=
                 match n with
                 | O => None
                 | S n =>
                     match skip_space s with
                     | String "034"%char r1 =>
                         match read_string r1 EmptyString with
                         | Some (k, r2) =>
                             match skip_space r2 with
                             | String ":"%char r3 =>
                                 match read_value fuel r3 with
                                 | Some (v, r4) =>
                                     match skip_space r4 with
                                     | String ","%char r5 => read_members n (<[k := v]> o) r5
                                     | String "}"%char r5 => Some (JObject (<[k := v]> o), r5)
                                     | _ => None
                                     end
                                 | None => None
                                 end
                             | _ => None
                             end
                         | None => None
                         end
                     | _ => None
                     end
                 end) fuel ∅ members
          end
      | String "["%char r =>
          match skip_space r with
          | String "]"%char r' => Some (JArray [], r')
          | elements =>
              (fix read_elements (n : nat) (l : list json) (s : string)
                 {struct n} : option (json * string) :=
                 match n with
                 | O => None
                 | S n =>
                     match read_value fuel s with
                     | Some (v, r1) =>
                         match skip_space r1 with
                         | String ","%char r2 => read_elements n (l ++ [v]) r2
                         | String "]"%char r2 => Some (JArray (l ++ [v]), r2)
                         | _ => None
                         end
                     | None => None
                     end
                 end) fuel [] elements
          end
      | String "034"%char r =>
          match read_string r EmptyString with
          | Some (str, r') => Some (JString str, r')
          | None => None
          end
      | String "-"%char r =>
          match read_digits_rest r 0 false with
          | Some (m, r') => Some (JInt (- m), r')
          | None => None
          end
      | String "t"%char (String "r"%char (String "u"%char (String "e"%char r))) =>
          Some (JBool true, r)
      | String "f"%char (String "a"%char (String "l"%char (String "s"%char (String "e"%char r)))) =>
          Some (JBool false, r)
      | String "n"%char (String "u"%char (String "l"%char (String "l"%char r))) =>
          Some (JNull, r)
      | s' =>
          match read_digits_rest s' 0 false with
          | Some (m, r') => Some (JUInt m, r')
          | None => None
          end
      end
  end.

Definition read_json (text : string) : option json :=
  match read_value (S (String.length text)) text with
  | Some (j, rest) =>
      match skip_space rest with
      | EmptyString => Some j
      | _ => None
      end
  | None => None
  end.

Fixpoint print_digits (fuel : nat) (n : Z) (acc : string) : string :=
  match fuel with
  | O => acc
  | S fuel =>
      let acc := String (ascii_of_nat (Z.to_nat (48 + n mod 10))) acc in
      if n <? 10 then acc else print_digits fuel (n / 10) acc
  end.

Definition print_Z (z : Z) : string :=
  if z <? 0
  then "-" +:+ print_digits 20 (- z) EmptyString
  else print_digits 20 z EmptyString.

Fixpoint print_value (fuel : nat) (j : json) : string :=
  match fuel with
  | O => EmptyString
  | S fuel =>
      match j with
      | JNull => "null"
      | JBool true => "true"
      | JBool false => "false"
      | JInt z => print_Z z
      | JUInt z => print_Z z
      | JFloat bits => print_Z bits
      | JString s => quoted s
      | JArray l => "[" +:+ String.concat "," (print_value fuel <$> l) +:+ "]"
      | JObject o =>
          "{" +:+ String.concat ","
                    ((fun kv => quoted kv.1 +:+ ":" +:+ print_value fuel kv.2)
                       <$> map_to_list o) +:+ "}"
      end
  end.

Definition describe (e : exception) : string :=
  match e with
  | parse_error text => "parse error: " +:+ text
  | type_error => "type error"
  | key_not_found key => "key not found: " +:+ key
  | invalid_argument => "invalid argument"
  | out_of_range => "out of range"
  | bad_optional_access => "bad optional access"
  end.

(** [{"k": {"$numberInt": "digits"}}] without the outer braces. *)
Definition number_int_member (k digits : string) : string :=
  quoted k +:+ ":" +:+ field_text "$numberInt" (quoted digits).

(** Payloads as the server words them. *)
Definition count_payload (digits : string) : string :=
  field_text "$numberLong" (quoted digits).

Definition delete_payload (digits : string) : string :=
  "{" +:+ number_int_member "deletedCount" digits +:+ "}".

Definition update_payload (matched modified : string) : string :=
  "{" +:+ number_int_member "matchedCount" matched +:+ ","
      +:+ number_int_member "modifiedCount" modified +:+ "}".

Definition inserted_payload : string :=
  field_text "insertedIds"
    ("[" +:+ field_text "$oid" (quoted "a") +:+ ","
         +:+ field_text "$oid" (quoted "b") +:+ "]").

(** The service: a count for [count], counts for the delete and update
    calls, two identifiers for [insertMany], and an empty list of
    documents for the rest. *)
Definition service (name args : string) : option AppError * option string :=
  if String.eqb name "count"
  then (None, Some (count_payload "42"))
  else if String.eqb name "deleteOne" || String.eqb name "deleteMany"
  then (None, Some (delete_payload "3"))
  else if String.eqb name "updateOne" || String.eqb name "updateMany"
  then (None, Some (update_payload "2" "1"))
  else if String.eqb name "insertMany"
  then (None, Some inserted_payload)
  else (None, Some "[]").

Definition collaborators : Collaborators := {|
  parse_text := read_json;
  dump := print_value 64;
  what := describe;
  m_service := service
|}.

Definition books : RemoteMongoCollection :=
  mkRemoteMongoCollection "books" "library".

(** [{"title":"Dune"}] and [{"title":1}], a filter and a sort order or
    projection. *)
Definition title_filter : string := field_text "title" (quoted "Dune").
Definition by_title : string := field_text "title" "1".

(** [{"$set":{"title":"Dune"}}] *)
Definition set_title : string := field_text "$set" title_filter.

(** The document a builder built ([null] if it threw). *)
Definition built (r : result json) : json :=
  match r with
  | Ok args => args
  | Throw _ => JNull
  end.

End Sample.

(** ** The thirteen operations as one type

    A [request] names one call of the public surface with its arguments,
    so that what holds of every operation is stated once.  [perform]
    dispatches to the operation itself and tags the result it completes
    with. *)

Inductive request : Type :=
| Find (filter_json : string) (options : RemoteFindOptions.t)
| FindOne (filter_json : string) (options : RemoteFindOptions.t)
| InsertOne (value_json : string)
| Aggregate (pipline : list string)
| Count (filter_json : string) (limit : Z)
| InsertMany (documents : list string)
| DeleteOne (filter_json : string)
| DeleteMany (filter_json : string)
| UpdateOne (filter_json update_json : string) (upsert : bool)
| UpdateMany (filter_json update_json : string) (upsert : bool)
| FindOneAndUpdate (filter_json update_json : string)
    (options : RemoteFindOneAndModifyOptions.t)
| FindOneAndReplace (filter_json replacement_json : string)
    (options : RemoteFindOneAndModifyOptions.t)
| FindOneAndDelete (filter_json : string)
    (options : RemoteFindOneAndModifyOptions.t).

(** The first argument of the five kinds of completion block. *)
Inductive outcome : Type :=
| returned_text (text : string)
| returned_count (n : Z)
| returned_update (r : RemoteUpdateResult)
| returned_ids (ids : gmap Z string)
| returned_nothing.

(** The name each operation passes to [call_function]. *)
Definition function_name (r : request) : string :=
  match r with
  | Find _ _ => "find"
  | FindOne _ _ => "findOne"
  | InsertOne _ => "insertOne"
  | Aggregate _ => "aggregate"
  | Count _ _ => "count"
  | InsertMany _ => "insertMany"
  | DeleteOne _ => "deleteOne"
  | DeleteMany _ => "deleteMany"
  | UpdateOne _ _ _ => "updateOne"
  | UpdateMany _ _ _ => "updateMany"
  | FindOneAndUpdate _ _ _ => "findOneAndUpdate"
  | FindOneAndReplace _ _ _ => "findOneAndReplace"
  | FindOneAndDelete _ _ => "findOneAndDelete"
  end.

(** The result each operation passes to its completion block from its
    [catch] clause and from the fall-through of its decoder. *)
Definition empty_outcome (r : request) : outcome :=
  match r with
  | Find _ _ | FindOne _ _ | InsertOne _ | Aggregate _
  | FindOneAndUpdate _ _ _ | FindOneAndReplace _ _ _ => returned_text ""
  | Count _ _ | DeleteOne _ | DeleteMany _ => returned_count 0
  | InsertMany _ => returned_ids ∅
  | UpdateOne _ _ _ | UpdateMany _ _ _ => returned_update empty_update_result
  | FindOneAndDelete _ _ => returned_nothing
  end.

(** The text an operation parses first (its filter, or the document of
    [insert_one]), and the member of the element it is stored under. *)
Definition filter_of (r : request) : option string :=
  match r with
  | Find f _ | FindOne f _ | InsertOne f | Count f _ | DeleteOne f | DeleteMany f
  | UpdateOne f _ _ | UpdateMany f _ _
  | FindOneAndUpdate f _ _ | FindOneAndReplace f _ _ | FindOneAndDelete f _ => Some f
  | Aggregate _ | InsertMany _ => None
  end.

Definition filter_member (r : request) : string :=
  match r with
  | InsertOne _ => "document"
  | _ => "query"
  end.

(** The update or replacement text of the four operations that take one. *)
Definition update_of (r : request) : option string :=
  match r with
  | UpdateOne _ u _ | UpdateMany _ u _
  | FindOneAndUpdate _ u _ | FindOneAndReplace _ u _ => Some u
  | _ => None
  end.

(** The projection option of the five operations that take one. *)
Definition projection_of (r : request) : option string :=
  match r with
  | Find _ o | FindOne _ o => RemoteFindOptions.projection_json o
  | FindOneAndUpdate _ _ o | FindOneAndReplace _ _ o | FindOneAndDelete _ o =>
      RemoteFindOneAndModifyOptions.projection_json o
  | _ => None
  end.

Definition observe {R : Type} (tag : R → outcome) (trace : list (event R))
  : list (event outcome) :=
  (λ ev, match ev with
         | call_function fname args => call_function fname args
         | completion_block r error => completion_block (tag r) error
         end) <$> trace.

(** A trace with one completion block at its end, preceded by at most one
    call of the service, under the name [fname]. *)
Definition one_round_trip {R : Type} (fname : string) (trace : list (event R)) : bool :=
  match trace with
  | [completion_block _ _] => true
  | [call_function called _; completion_block _ _] => String.eqb called fname
  | _ => false
  end.

Section Requests.
Context {env : Collaborators}.
Variable self : RemoteMongoCollection.

Definition request_args (r : request) : result json :=
  match r with
  | Find f o => find_args self f o
  | FindOne f o => find_one_args self f o
  | InsertOne v => insert_one_args self v
  | Aggregate p => aggregate_args self p
  | Count f l => count_args self f l
  | InsertMany d => insert_many_args self d
  | DeleteOne f => delete_one_args self f
  | DeleteMany f => delete_many_args self f
  | UpdateOne f u b => update_one_args self f u b
  | UpdateMany f u b => update_many_args self f u b
  | FindOneAndUpdate f u o => find_one_and_update_args self f u o
  | FindOneAndReplace f u o => find_one_and_replace_args self f u o
  | FindOneAndDelete f o => find_one_and_delete_args self f o
  end.

Definition perform (r : request) : list (event outcome) :=
  match r with
  | Find f o => observe returned_text (find self f o)
  | FindOne f o => observe returned_text (find_one self f o)
  | InsertOne v => observe returned_text (insert_one self v)
  | Aggregate p => observe returned_text (aggregate self p)
  | Count f l => observe returned_count (count self f l)
  | InsertMany d => observe returned_ids (insert_many self d)
  | DeleteOne f => observe returned_count (delete_one self f)
  | DeleteMany f => observe returned_count (delete_many self f)
  | UpdateOne f u b => observe returned_update (update_one self f u b)
  | UpdateMany f u b => observe returned_update (update_many self f u b)
  | FindOneAndUpdate f u o => observe returned_text (find_one_and_update self f u o)
  | FindOneAndReplace f u o => observe returned_text (find_one_and_replace self f u o)
  | FindOneAndDelete f o => observe (λ _, returned_nothing) (find_one_and_delete self f o)
  end.

(** The decoder each operation hands to the service, with its result
    tagged. *)
Definition decoder (r : request) (error : option AppError) (payload : option string)
  : outcome * option AppError :=
  match r with
  | Find _ _ | FindOne _ _ | InsertOne _ | Aggregate _
  | FindOneAndUpdate _ _ _ | FindOneAndReplace _ _ _ =>
      prod_map returned_text id (handle_response error payload)
  | Count _ _ => prod_map returned_count id (handle_count_response error payload)
  | DeleteOne _ | DeleteMany _ =>
      prod_map returned_count id (handle_delete_count_response error payload)
  | InsertMany _ => prod_map returned_ids id (insert_many_response error payload)
  | UpdateOne _ _ _ | UpdateMany _ _ _ =>
      prod_map returned_update id (handle_update_response error payload)
  | FindOneAndDelete _ _ =>
      prod_map (λ _, returned_nothing) id (find_one_and_delete_response error payload)
  end.

End Requests.

(** Collaborators whose service gives the same answer to every call. *)
Module Replies.

Definition answering (reply : option AppError * option string) : Collaborators := {|
  parse_text := Sample.read_json;
  dump := Sample.print_value 64;
  what := Sample.describe;
  m_service := λ _ _, reply
|}.

Definition unreachable : AppError :=
  mkAppError (service_error "http" 503) "service unavailable".

(** A service that is down, and yet sends a body. *)
Definition offline : Collaborators :=
  answering (Some unreachable, Some (Sample.count_payload "42")).

(** A service that returns text which is not JSON. *)
Definition babbling : Collaborators :=
  answering (None, Some "<html>").

(** [{"insertedIds":[{"$oid":"a","n":1},{"$oid":"b"}]}]: an identifier
    object with a member besides [$oid]. *)
Definition annotated_ids_payload : string :=
  Sample.field_text "insertedIds"
    ("[{" +:+ Sample.quoted "$oid" +:+ ":" +:+ Sample.quoted "a" +:+ ","
          +:+ Sample.quoted "n" +:+ ":1}," +:+
     Sample.field_text "$oid" (Sample.quoted "b") +:+ "]").

(** [{"insertedIds":[{"$oid":"a"},{"id":"b"}]}]: the second element has
    no [$oid]. *)
Definition broken_ids_payload : string :=
  Sample.field_text "insertedIds"
    ("[" +:+ Sample.field_text "$oid" (Sample.quoted "a") +:+ ","
         +:+ Sample.field_text "id" (Sample.quoted "b") +:+ "]").

(** An update response with readable counts and the string ["abc"] where
    the [{"$oid": ...}] object should be. *)
Definition bad_upsert_payload : string :=
  "{" +:+ Sample.number_int_member "matchedCount" "2" +:+ ","
      +:+ Sample.number_int_member "modifiedCount" "1" +:+ ","
      +:+ Sample.quoted "upsertedId" +:+ ":" +:+ Sample.quoted "abc" +:+ "}".

(** The identifiers of a response with [INT_MAX + 2] of them, all ["a"],
    and collaborators whose parser reads that response. *)
Definition too_many_ids : list string :=
  replicate (Z.to_nat INT_MAX) "a" ++ ["a"; "a"].

Definition flooded : Collaborators := {|
  parse_text := λ _,
    Some (JObject {["insertedIds" :=
            JArray ((λ id, JObject {["$oid" := JString id]}) <$> too_many_ids)]});
  dump := Sample.print_value 64;
  what := Sample.describe;
  m_service := Sample.service
|}.

End Replies.

(** * Properties *)

(** ** std::map::insert *)

Section MapInsert.
Context `{Countable K} {V : Type}.
Implicit Types (k : K) (v : V) (m : gmap K V).

Lemma lookup_map_insert_ne k k' v m :
  k ≠ k' → map_insert k v m !! k' = m !! k'.
Proof.
  intros Hne. unfold map_insert.
  destruct (m !! k); [done | by rewrite lookup_insert_ne].
Qed.

Lemma lookup_map_insert_fresh k v m :
  m !! k = None → map_insert k v m !! k = Some v.
Proof.
  intros Hk. unfold map_insert. rewrite Hk. apply lookup_insert_eq.
Qed.

Lemma lookup_map_insert_None k k' v m :
  map_insert k v m !! k' = None ↔ k ≠ k' ∧ m !! k' = None.
Proof.
  unfold map_insert. destruct (m !! k) eqn:Hk.
  - split; [intros Hk'; split; [congruence | done] | by intros [_ ?]].
  - rewrite lookup_insert_None. tauto.
Qed.

End MapInsert.

(** The powers of two behind the integer types, as numerals for [lia]. *)
Ltac widths :=
  change (2 ^ 31) with 2147483648 in *;
  change (2 ^ 32) with 4294967296 in *;
  change (2 ^ 64) with 18446744073709551616 in *.

(** ** The exception monad *)

Lemma bind_Ok {A B : Type} (r : result A) (k : A → result B) (b : B) :
  bind r k = Ok b ↔ ∃ a, r = Ok a ∧ k a = Ok b.
Proof.
  destruct r as [a | e]; simpl.
  - split; [eauto | by intros (a' & [= <-] & ?)].
  - split; [done | by intros (a' & ? & ?)].
Qed.

Lemma json_find_at (j : json) (key : string) (v : json) :
  json_find j key = Some v → json_at j key = Ok v.
Proof.
  destruct j; simpl; try done. by intros ->.
Qed.

Lemma json_at_find (j : json) (key : string) (v : json) :
  json_at j key = Ok v → json_find j key = Some v.
Proof.
  destruct j; simpl; try done. destruct (o !! key); [by intros [= ->] | done].
Qed.

(** ** Response decoders *)

Section Decoders.
Context {env : Collaborators}.

(** C4: when the service reports an error, every decoder hands the
    completion block that very error together with the empty result of
    its operation, whether or not a payload came with it.  The payload is
    never looked at: the equations hold for every text parser. *)
Theorem reported_error_is_forwarded (e : AppError) (payload : option string) :
  handle_response (Some e) payload = ("", Some e)
  ∧ handle_count_response (Some e) payload = (0, Some e)
  ∧ handle_delete_count_response (Some e) payload = (0, Some e)
  ∧ handle_update_response (Some e) payload = (empty_update_result, Some e)
  ∧ insert_many_response (Some e) payload = (∅, Some e)
  ∧ find_one_and_delete_response (Some e) payload = (tt, Some e).
Proof.
  repeat split; by destruct payload.
Qed.

(** C10: when the service reports neither an error nor a payload, every
    decoder hands the completion block the empty result of its operation
    and no error. *)
Theorem absent_payload_is_not_an_error :
  handle_response None None = ("", None)
  ∧ handle_count_response None None = (0, None)
  ∧ handle_delete_count_response None None = (0, None)
  ∧ handle_update_response None None = (empty_update_result, None)
  ∧ insert_many_response None None = (∅, None)
  ∧ find_one_and_delete_response None None = (tt, None).
Proof.
  repeat split.
Qed.

Lemma parse_Ok (text : string) (j : json) :
  parse text = Ok j ↔ parse_text text = Some j.
Proof.
  unfold parse. destruct (parse_text text); split; congruence.
Qed.

Lemma read_wrapped_Ok (j : json) (field wrapper s : string) :
  read_wrapped j field wrapper = Ok s ↔
  ∃ f w, json_at j field = Ok f ∧ json_at f wrapper = Ok w ∧ get_string w = Ok s.
Proof.
  unfold read_wrapped. rewrite bind_Ok. setoid_rewrite bind_Ok.
  split.
  - intros (f & Hf & w & Hw & Hs). by exists f, w.
  - intros (f & w & Hf & Hw & Hs). exists f. split; [done |]. by exists w.
Qed.

(** The identifier part of an update result, as the decoder reads it. *)
Lemma upserted_id_Ok (j : json) (id : string) :
  match json_find j "upsertedId" with
  | Some _ =>
      let* upserted := json_at j "upsertedId" in
      let* oid := json_at upserted "$oid" in
      get_string oid
  | None => Ok ""
  end = Ok id ↔
  match json_find j "upsertedId" with
  | Some upserted => ∃ oid, json_at upserted "$oid" = Ok oid ∧ get_string oid = Ok id
  | None => id = ""
  end.
Proof.
  destruct (json_find j "upsertedId") as [u|] eqn:Hfind.
  - rewrite (json_find_at _ _ _ Hfind). simpl. by rewrite bind_Ok.
  - split; [by intros [= <-] | by intros ->].
Qed.

(** C6: an update response decodes without error exactly when the payload
    parses, [matchedCount] and [modifiedCount] each hold a string under
    [$numberInt] that [std::stoull] converts, and [upsertedId], if it
    is there, holds a string under [$oid]; the result then carries the
    two converted counts and that string, or the empty string when
    [upsertedId] is absent. *)
Theorem update_response_fields (payload : string) (r : RemoteUpdateResult) :
  handle_update_response None (Some payload) = (r, None) ↔
  ∃ j matched modified,
    parse_text payload = Some j
    ∧ read_wrapped j "matchedCount" "$numberInt" = Ok matched
    ∧ stoull matched = Ok (matched_count r)
    ∧ read_wrapped j "modifiedCount" "$numberInt" = Ok modified
    ∧ stoull modified = Ok (modified_count r)
    ∧ match json_find j "upsertedId" with
      | Some upserted =>
          ∃ oid, json_at upserted "$oid" = Ok oid ∧ get_string oid = Ok (upserted_id r)
      | None => upserted_id r = ""
      end.
Proof.
  unfold handle_update_response.
  set (body := bind _ _).
  assert (Hbody : body = Ok (r, None) ↔
    ∃ j matched modified,
      parse_text payload = Some j
      ∧ read_wrapped j "matchedCount" "$numberInt" = Ok matched
      ∧ stoull matched = Ok (matched_count r)
      ∧ read_wrapped j "modifiedCount" "$numberInt" = Ok modified
      ∧ stoull modified = Ok (modified_count r)
      ∧ match json_find j "upsertedId" with
        | Some upserted =>
            ∃ oid, json_at upserted "$oid" = Ok oid ∧ get_string oid = Ok (upserted_id r)
        | None => upserted_id r = ""
        end).
  { subst body. rewrite bind_Ok. setoid_rewrite parse_Ok.
    split.
    - intros (j & Hj & Hrest). exists j.
      repeat (apply bind_Ok in Hrest as (? & ? & Hrest)).
      injection Hrest as <-. simpl.
      eexists _, _. split_and!; try done.
      + apply read_wrapped_Ok. eauto.
      + apply read_wrapped_Ok. eauto.
      + by apply upserted_id_Ok.
    - intros (j & matched & modified & Hj & Hm & Hmc & Hd & Hdc & Hid).
      exists j. split; [done |].
      apply read_wrapped_Ok in Hm as (f1 & w1 & -> & Hw1 & Hs1).
      apply read_wrapped_Ok in Hd as (f2 & w2 & Hf2 & Hw2 & Hs2).
      apply upserted_id_Ok in Hid.
      cbn [bind]. rewrite Hw1. cbn [bind]. rewrite Hs1. cbn [bind].
      rewrite Hmc. cbn [bind]. rewrite Hf2. cbn [bind]. rewrite Hw2. cbn [bind].
      rewrite Hs2. cbn [bind]. rewrite Hdc. cbn [bind]. rewrite Hid. cbn [bind].
      by destruct r. }
  rewrite <- Hbody. clearbody body.
  destruct body as [[r' e'] | e]; simpl.
  - split; congruence.
  - unfold malformed. split; congruence.
Qed.

(** The loop of the [insertMany] decoder, started at index [i] with
    [mapped_oids] free from [i] on: it adds the identifiers under
    [i], [i + 1], ... as long as the [int] counter does not wrap. *)
Lemma map_oids_lookup (ids : list string) :
  ∀ (mapped_oids : gmap Z string) (i : Z),
    0 ≤ i → i + Z.of_nat (List.length ids) ≤ INT_MAX →
    (∀ k, i ≤ k → mapped_oids !! k = None) →
    ∃ m, map_oids ((λ id, JObject {["$oid" := JString id]}) <$> ids) mapped_oids i = Ok m
         ∧ ∀ k, m !! k = if decide (i ≤ k)
                         then ids !! Z.to_nat (k - i)
                         else mapped_oids !! k.
Proof.
  unfold INT_MAX.
  induction ids as [| id ids IH]; intros mapped_oids i Hi Hlen Hfree.
  all: widths.
  - exists mapped_oids. split; [done |].
    intros k. case_decide; [by rewrite Hfree | done].
  - rewrite fmap_cons. cbn [map_oids json_at].
    rewrite lookup_singleton_eq. cbn [bind get_string].
    rewrite length_cons in Hlen.
    assert (Hi64 : to_uint64 i = i).
    { unfold to_uint64. widths. apply Z.mod_small. lia. }
    assert (Hnext : to_int (i + 1) = i + 1).
    { unfold to_int. widths. rewrite Z.mod_small; lia. }
    rewrite Hi64, Hnext.
    destruct (IH (map_insert i id mapped_oids) (i + 1)) as (m & Hm & Hlookup).
    + lia.
    + lia.
    + intros k Hk. rewrite lookup_map_insert_ne by lia. apply Hfree. lia.
    + exists m. split; [done |].
      intros k. rewrite Hlookup.
      destruct (decide (i + 1 ≤ k)) as [Hk | Hk].
      * rewrite decide_True by lia.
        replace (Z.to_nat (k - i)) with (S (Z.to_nat (k - (i + 1)))) by lia.
        done.
      * destruct (decide (i ≤ k)) as [Hk' | Hk'].
        -- assert (k = i) as -> by lia.
           rewrite lookup_map_insert_fresh by (apply Hfree; lia).
           by replace (i - i) with 0 by lia.
        -- by rewrite lookup_map_insert_ne by lia.
Qed.


End Decoders.


(** ** Argument documents *)

(** One step of an argument builder under hypothesis [H]: unfold the
    monad and the JSON primitives, never the maps. *)
Ltac step_in H :=
  cbn [bind push_back value m_base_operation_args arguments] in H.

Ltac step :=
  cbn [bind push_back value try_catch m_base_operation_args arguments].

(** Lookups in argument documents have literal keys: they compute. *)
Ltac lookup_fields :=
  unfold document_field, outer_field, element_field, element_of;
  vm_compute; try reflexivity.

Section Encoders.
Context {env : Collaborators}.
Variable self : RemoteMongoCollection.

Lemma invoke_events {R : Type} (fname args : string)
    (decode : option AppError → option string → R * option AppError) :
  ∃ r e, invoke fname args decode = [call_function fname args; completion_block r e].
Proof.
  unfold invoke. destruct (m_service fname args) as [error payload].
  destruct (decode error payload) as [r e]. by exists r, e.
Qed.

(** C2 on the code: when the filter parses, [count] builds and sends a
    document whose element holds the parsed filter under [query], and
    nothing under [limit] at either place: the limit is pushed onto
    [base_args] after [args] was built from it. *)
Theorem count_limit_is_not_sent (filter_json : string) (query : json) (limit : Z) :
  parse_text filter_json = Some query →
  ∃ args,
    count_args self filter_json limit = Ok args
    ∧ count self filter_json limit = invoke "count" (dump args) handle_count_response
    ∧ element_field "query" args = Some query
    ∧ element_field "limit" args = None
    ∧ outer_field "limit" args = None.
Proof.
  intros Hq. unfold count, count_args, parse. rewrite Hq. step.
  eexists. split; [reflexivity |]. split; [reflexivity |].
  split_and!; lookup_fields.
Qed.

(** Without a projection option the five builders that take a sort
    option succeed as soon as the filter and the update parse. *)
Lemma sort_is_dropped_without_projection_args
    (filter_json update_json : string) (query update : json)
    (find_options : RemoteFindOptions.t)
    (modify_options : RemoteFindOneAndModifyOptions.t) :
  parse_text filter_json = Some query →
  parse_text update_json = Some update →
  RemoteFindOptions.projection_json find_options = None →
  RemoteFindOneAndModifyOptions.projection_json modify_options = None →
  (∃ args, find_args self filter_json find_options = Ok args)
  ∧ (∃ args, find_one_args self filter_json find_options = Ok args)
  ∧ (∃ args, find_one_and_update_args self filter_json update_json modify_options = Ok args)
  ∧ (∃ args, find_one_and_replace_args self filter_json update_json modify_options = Ok args)
  ∧ (∃ args, find_one_and_delete_args self filter_json modify_options = Ok args).
Proof.
  intros Hq Hu Hfp Hmp.
  destruct find_options as [limit fp fs], modify_options as [mp ms upsert rnd].
  simpl in Hfp, Hmp. subst fp mp.
  unfold find_args, find_one_args, find_one_and_update_args,
    find_one_and_replace_args, find_one_and_delete_args, parse.
  rewrite Hq, Hu.
  cbn [RemoteFindOptions.limit RemoteFindOptions.projection_json
       RemoteFindOneAndModifyOptions.projection_json
       RemoteFindOneAndModifyOptions.upsert
       RemoteFindOneAndModifyOptions.return_new_document].
  split_and!; destruct limit, upsert, rnd; step; eexists; reflexivity.
Qed.

(** C1 on the code: without a projection option, each of the five
    operations that take a sort option builds its document without a
    [sort] field at either place, whatever the sort option holds: the
    branch that attaches [sort] tests the projection option. *)
Theorem sort_is_dropped_without_projection
    (filter_json update_json : string) (query update : json)
    (find_options : RemoteFindOptions.t)
    (modify_options : RemoteFindOneAndModifyOptions.t) :
  parse_text filter_json = Some query →
  parse_text update_json = Some update →
  RemoteFindOptions.projection_json find_options = None →
  RemoteFindOneAndModifyOptions.projection_json modify_options = None →
  (∃ args, find_args self filter_json find_options = Ok args
           ∧ document_field "sort" args = None)
  ∧ (∃ args, find_one_args self filter_json find_options = Ok args
             ∧ document_field "sort" args = None)
  ∧ (∃ args, find_one_and_update_args self filter_json update_json modify_options = Ok args
             ∧ document_field "sort" args = None)
  ∧ (∃ args, find_one_and_replace_args self filter_json update_json modify_options = Ok args
             ∧ document_field "sort" args = None)
  ∧ (∃ args, find_one_and_delete_args self filter_json modify_options = Ok args
             ∧ document_field "sort" args = None).
Proof.
  intros Hq Hu Hfp Hmp.
  destruct find_options as [limit fp fs], modify_options as [mp ms upsert rnd].
  simpl in Hfp, Hmp. subst fp mp.
  unfold find_args, find_one_args, find_one_and_update_args,
    find_one_and_replace_args, find_one_and_delete_args, parse.
  rewrite Hq, Hu.
  cbn [RemoteFindOptions.limit RemoteFindOptions.projection_json
       RemoteFindOneAndModifyOptions.projection_json
       RemoteFindOneAndModifyOptions.upsert
       RemoteFindOneAndModifyOptions.return_new_document].
  split_and!; destruct limit, upsert, rnd; step;
    (eexists; split; [reflexivity | lookup_fields]).
Qed.

(** C3 on the code: [update_many] puts [upsert] on the outer envelope and
    not into the element, and [find_one_and_delete] puts every modifier
    it sends ([upsert], [returnNewDocument], [project], [sort]) on the
    outer envelope and none into the element. *)
Theorem modifiers_on_the_envelope
    (filter_json update_json : string) (upsert : bool)
    (options : RemoteFindOneAndModifyOptions.t) (many_args delete_args : json) :
  update_many_args self filter_json update_json upsert = Ok many_args →
  find_one_and_delete_args self filter_json options = Ok delete_args →
  element_field "upsert" many_args = None
  ∧ outer_field "upsert" many_args = Some (JBool upsert)
  ∧ (∀ key, key ∈ ["upsert"; "returnNewDocument"; "project"; "sort"] →
            element_field key delete_args = None)
  ∧ outer_field "upsert" delete_args
    = (if RemoteFindOneAndModifyOptions.upsert options then Some (JBool true) else None)
  ∧ outer_field "returnNewDocument" delete_args
    = (if RemoteFindOneAndModifyOptions.return_new_document options
       then Some (JBool true) else None)
  ∧ (is_Some (outer_field "project" delete_args)
     ↔ is_Some (RemoteFindOneAndModifyOptions.projection_json options))
  ∧ (is_Some (outer_field "sort" delete_args)
     ↔ is_Some (RemoteFindOneAndModifyOptions.projection_json options)).
Proof.
  intros Hmany Hdelete.
  assert (Hmany' : ∃ query update,
    many_args = JObject (map_insert "upsert" (JBool upsert)
      {["arguments" := JArray [JObject (map_insert "update" update
         (map_insert "query" query
            (map_insert "collection" (JString (name self))
               (map_insert "database" (JString (database_name self)) ∅))))]]})).
  { unfold update_many_args, parse in Hmany.
    destruct (parse_text filter_json) as [query |]; [| done].
    destruct (parse_text update_json) as [update |]; [| done].
    step_in Hmany. injection Hmany as <-. by exists query, update. }
  destruct Hmany' as (query & update & ->).
  split; [lookup_fields |]. split; [lookup_fields |].
  unfold find_one_and_delete_args, parse in Hdelete.
  destruct (parse_text filter_json) as [query' |]; [| done].
  destruct options as [mp ms ups rnd].
  cbn [RemoteFindOneAndModifyOptions.projection_json
       RemoteFindOneAndModifyOptions.sort_json
       RemoteFindOneAndModifyOptions.upsert
       RemoteFindOneAndModifyOptions.return_new_document] in *.
  destruct ups, rnd, mp as [projection |]; step_in Hdelete;
    try (destruct (parse_text projection) as [project |]; [| done]; step_in Hdelete);
    try (destruct ms as [sort_text |]; [| done]; step_in Hdelete;
         destruct (parse_text sort_text) as [sort |]; [| done]; step_in Hdelete);
    injection Hdelete as <-;
    (split_and!;
     [ intros key Hkey; repeat (apply elem_of_cons in Hkey as [-> | Hkey]);
       [lookup_fields .. | by apply elem_of_nil in Hkey]
     | lookup_fields
     | lookup_fields
     | lookup_fields; split; intros [? ?]; (done || eauto)
     | lookup_fields; split; intros [? ?]; (done || eauto) ]).
Qed.

(** X26: the sibling builders [update_one] and [find_one_and_update] put
    the same fields into the element and leave the envelope without them. *)
Lemma modifiers_in_the_element
    (filter_json update_json : string) (upsert : bool)
    (options : RemoteFindOneAndModifyOptions.t) (one_args update_args : json) :
  update_one_args self filter_json update_json upsert = Ok one_args →
  find_one_and_update_args self filter_json update_json options = Ok update_args →
  element_field "upsert" one_args = Some (JBool upsert)
  ∧ outer_field "upsert" one_args = None
  ∧ (∀ key, key ∈ ["upsert"; "returnNewDocument"; "project"; "sort"] →
            outer_field key update_args = None)
  ∧ element_field "upsert" update_args
    = (if RemoteFindOneAndModifyOptions.upsert options then Some (JBool true) else None)
  ∧ element_field "returnNewDocument" update_args
    = (if RemoteFindOneAndModifyOptions.return_new_document options
       then Some (JBool true) else None).
Proof.
  intros Hone Hupdate.
  unfold update_one_args, find_one_and_update_args, parse in *.
  destruct (parse_text filter_json) as [query |]; [| done].
  destruct (parse_text update_json) as [update |]; [| done].
  step_in Hone. injection Hone as <-.
  split; [lookup_fields |]. split; [lookup_fields |].
  destruct options as [mp ms ups rnd].
  cbn [RemoteFindOneAndModifyOptions.projection_json
       RemoteFindOneAndModifyOptions.sort_json
       RemoteFindOneAndModifyOptions.upsert
       RemoteFindOneAndModifyOptions.return_new_document] in *.
  destruct ups, rnd, mp as [projection |]; step_in Hupdate;
    try (destruct (parse_text projection) as [project |]; [| done]; step_in Hupdate);
    try (destruct ms as [sort_text |]; [| done]; step_in Hupdate;
         destruct (parse_text sort_text) as [sort |]; [| done]; step_in Hupdate);
    injection Hupdate as <-;
    (split_and!;
     [ intros key Hkey; repeat (apply elem_of_cons in Hkey as [-> | Hkey]);
       [lookup_fields .. | by apply elem_of_nil in Hkey]
     | lookup_fields
     | lookup_fields ]).
Qed.

(** X27: what the [sort] field of a built document is: with a projection
    option, the parsed sort text; without one, nothing. *)
Lemma sort_field_follows_projection
    (filter_json update_json : string)
    (find_options : RemoteFindOptions.t)
    (modify_options : RemoteFindOneAndModifyOptions.t) :
  let find_sort :=
    match RemoteFindOptions.projection_json find_options,
          RemoteFindOptions.sort_json find_options with
    | Some _, Some sort_text => parse_text sort_text
    | _, _ => None
    end in
  let modify_sort :=
    match RemoteFindOneAndModifyOptions.projection_json modify_options,
          RemoteFindOneAndModifyOptions.sort_json modify_options with
    | Some _, Some sort_text => parse_text sort_text
    | _, _ => None
    end in
  (∀ args, find_args self filter_json find_options = Ok args →
           document_field "sort" args = find_sort)
  ∧ (∀ args, find_one_args self filter_json find_options = Ok args →
             document_field "sort" args = find_sort)
  ∧ (∀ args, find_one_and_update_args self filter_json update_json modify_options = Ok args →
             document_field "sort" args = modify_sort)
  ∧ (∀ args, find_one_and_replace_args self filter_json update_json modify_options = Ok args →
             document_field "sort" args = modify_sort)
  ∧ (∀ args, find_one_and_delete_args self filter_json modify_options = Ok args →
             document_field "sort" args = modify_sort).
Proof.
  destruct find_options as [limit fp fs], modify_options as [mp ms ups rnd].
  cbn [RemoteFindOptions.limit RemoteFindOptions.projection_json
       RemoteFindOptions.sort_json
       RemoteFindOneAndModifyOptions.projection_json
       RemoteFindOneAndModifyOptions.sort_json
       RemoteFindOneAndModifyOptions.upsert
       RemoteFindOneAndModifyOptions.return_new_document].
  unfold find_args, find_one_args, find_one_and_update_args,
    find_one_and_replace_args, find_one_and_delete_args, parse.
  cbn [RemoteFindOptions.limit RemoteFindOptions.projection_json
       RemoteFindOptions.sort_json
       RemoteFindOneAndModifyOptions.projection_json
       RemoteFindOneAndModifyOptions.sort_json
       RemoteFindOneAndModifyOptions.upsert
       RemoteFindOneAndModifyOptions.return_new_document].
  destruct (parse_text filter_json) as [query |],
    (parse_text update_json) as [update |];
    (split_and!; intros args Hargs; step_in Hargs; try done).
  all: destruct limit, ups, rnd; step_in Hargs.
  all: try (destruct fp as [projection |]; step_in Hargs;
            [destruct (parse_text projection) as [project |]; [| done]; step_in Hargs;
             destruct fs as [sort_text |]; [| done]; step_in Hargs;
             destruct (parse_text sort_text) as [sort |]; [| done]; step_in Hargs |]).
  all: try (destruct mp as [projection |]; step_in Hargs;
            [destruct (parse_text projection) as [project |]; [| done]; step_in Hargs;
             destruct ms as [sort_text |]; [| done]; step_in Hargs;
             destruct (parse_text sort_text) as [sort |]; [| done]; step_in Hargs |]).
  all: injection Hargs as <-; lookup_fields.
Qed.

(** C5 on the code: a sort text that does not parse, given without a
    projection option, is never parsed; each of the five operations that
    take a sort option then builds its document and calls the service. *)
Theorem malformed_sort_reaches_the_service
    (filter_json update_json sort_text : string) (query update : json)
    (find_options : RemoteFindOptions.t)
    (modify_options : RemoteFindOneAndModifyOptions.t) :
  parse_text filter_json = Some query →
  parse_text update_json = Some update →
  parse_text sort_text = None →
  RemoteFindOptions.sort_json find_options = Some sort_text →
  RemoteFindOptions.projection_json find_options = None →
  RemoteFindOneAndModifyOptions.sort_json modify_options = Some sort_text →
  RemoteFindOneAndModifyOptions.projection_json modify_options = None →
  (∃ args r e, find self filter_json find_options
               = [call_function "find" (dump args); completion_block r e])
  ∧ (∃ args r e, find_one self filter_json find_options
                 = [call_function "findOne" (dump args); completion_block r e])
  ∧ (∃ args r e, find_one_and_update self filter_json update_json modify_options
                 = [call_function "findOneAndUpdate" (dump args); completion_block r e])
  ∧ (∃ args r e, find_one_and_replace self filter_json update_json modify_options
                 = [call_function "findOneAndReplace" (dump args); completion_block r e])
  ∧ (∃ args r e, find_one_and_delete self filter_json modify_options
                 = [call_function "findOneAndDelete" (dump args); completion_block r e]).
Proof.
  intros Hq Hu _ _ Hfp _ Hmp.
  destruct (sort_is_dropped_without_projection_args filter_json update_json query update
              find_options modify_options Hq Hu Hfp Hmp)
    as ((a1 & H1) & (a2 & H2) & (a3 & H3) & (a4 & H4) & (a5 & H5)).
  unfold find, find_one, find_one_and_update, find_one_and_replace, find_one_and_delete.
  rewrite H1, H2, H3, H4, H5. step.
  split_and!; eexists; apply invoke_events.
Qed.

(** How each builder fails when a projection is given without a sort. *)
Lemma projection_without_sort_throws
    (filter_json update_json projection : string)
    (find_options : RemoteFindOptions.t)
    (modify_options : RemoteFindOneAndModifyOptions.t) :
  RemoteFindOptions.projection_json find_options = Some projection →
  RemoteFindOptions.sort_json find_options = None →
  RemoteFindOneAndModifyOptions.projection_json modify_options = Some projection →
  RemoteFindOneAndModifyOptions.sort_json modify_options = None →
  (∃ e, find_args self filter_json find_options = Throw e)
  ∧ (∃ e, find_one_args self filter_json find_options = Throw e)
  ∧ (∃ e, find_one_and_update_args self filter_json update_json modify_options = Throw e)
  ∧ (∃ e, find_one_and_replace_args self filter_json update_json modify_options = Throw e)
  ∧ (∃ e, find_one_and_delete_args self filter_json modify_options = Throw e).
Proof.
  intros Hfp Hfs Hmp Hms.
  destruct find_options as [limit fp fs], modify_options as [mp ms upsert rnd].
  simpl in Hfp, Hfs, Hmp, Hms. subst fp fs mp ms.
  unfold find_args, find_one_args, find_one_and_update_args,
    find_one_and_replace_args, find_one_and_delete_args, parse.
  cbn [RemoteFindOptions.limit RemoteFindOptions.projection_json
       RemoteFindOptions.sort_json
       RemoteFindOneAndModifyOptions.projection_json
       RemoteFindOneAndModifyOptions.sort_json
       RemoteFindOneAndModifyOptions.upsert
       RemoteFindOneAndModifyOptions.return_new_document].
  destruct (parse_text filter_json), (parse_text update_json),
    (parse_text projection), limit, upsert, rnd; step;
    split_and!; eauto.
Qed.

(** C9: when the projection option is present and the sort option is
    absent, each of the five operations that take them invokes the
    completion block once, with a malformed-JSON error and its empty
    result, and does not call the service. *)
Theorem projection_without_sort_fails_locally
    (filter_json update_json : string)
    (find_options : RemoteFindOptions.t)
    (modify_options : RemoteFindOneAndModifyOptions.t) :
  is_Some (RemoteFindOptions.projection_json find_options) →
  RemoteFindOptions.sort_json find_options = None →
  is_Some (RemoteFindOneAndModifyOptions.projection_json modify_options) →
  RemoteFindOneAndModifyOptions.sort_json modify_options = None →
  (∃ e, find self filter_json find_options
        = [completion_block "" (Some (mkAppError malformed_json (what e)))])
  ∧ (∃ e, find_one self filter_json find_options
          = [completion_block "" (Some (mkAppError malformed_json (what e)))])
  ∧ (∃ e, find_one_and_update self filter_json update_json modify_options
          = [completion_block "" (Some (mkAppError malformed_json (what e)))])
  ∧ (∃ e, find_one_and_replace self filter_json update_json modify_options
          = [completion_block "" (Some (mkAppError malformed_json (what e)))])
  ∧ (∃ e, find_one_and_delete self filter_json modify_options
          = [completion_block tt (Some (mkAppError malformed_json (what e)))]).
Proof.
  intros [fp Hfp] Hfs [mp Hmp] Hms.
  destruct (projection_without_sort_throws filter_json update_json fp
              find_options (RemoteFindOneAndModifyOptions.mk (Some fp) None false false)
              Hfp Hfs eq_refl eq_refl)
    as ((e1 & H1) & (e2 & H2) & _).
  destruct (projection_without_sort_throws filter_json update_json mp
              (RemoteFindOptions.mk None (Some mp) None) modify_options
              eq_refl eq_refl Hmp Hms)
    as (_ & _ & (e3 & H3) & (e4 & H4) & (e5 & H5)).
  unfold find, find_one, find_one_and_update, find_one_and_replace, find_one_and_delete.
  rewrite H1, H2, H3, H4, H5. step.
  split_and!; eexists; reflexivity.
Qed.

End Encoders.

(** ** Numbers in count results *)

Lemma digit_value_bounds (c : ascii) (d : Z) :
  digit_value c = Some d → 0 ≤ d ≤ 9 ∧ Z.of_nat (nat_of_ascii c) = d + 48.
Proof.
  unfold digit_value.
  destruct (48 <=? Z.of_nat (nat_of_ascii c)) eqn:Hlo; [| done].
  destruct (Z.of_nat (nat_of_ascii c) <=? 57) eqn:Hhi; [| done].
  simpl. intros [= <-]. lia.
Qed.

Lemma read_digits_decimal (s : string) :
  ∀ acc seen n, decimal_from s acc = Some n → (seen = true ∨ s ≠ EmptyString) →
                read_digits s acc seen = Some n.
Proof.
  induction s as [| c r IH]; intros acc seen n Hn Hseen; simpl in *.
  - destruct Hseen as [-> | ?]; [done | congruence].
  - destruct (digit_value c) as [d |]; [| done].
    apply IH; [done | by left].
Qed.

Lemma decimal_from_nonneg (s : string) :
  ∀ acc n, 0 ≤ acc → decimal_from s acc = Some n → 0 ≤ n.
Proof.
  induction s as [| c r IH]; intros acc n Hacc Hn; simpl in Hn.
  - injection Hn as <-. done.
  - destruct (digit_value c) as [d |] eqn:Hd; [| done].
    apply digit_value_bounds in Hd as [Hd _].
    apply (IH (10 * acc + d)); [lia | done].
Qed.

(** On a string of digits, [std::stoi] and [std::stoull] see a number
    without sign whose magnitude is the value of the string. *)
Lemma read_number_decimal (s : string) (n : Z) :
  decimal s = Some n → read_number s = Some (false, n).
Proof.
  destruct s as [| c r]; [done |].
  unfold decimal. intros Hn.
  assert (Hr : read_digits (String c r) 0 false = Some n).
  { apply read_digits_decimal; [done | by right]. }
  assert (Hc : ∃ d, digit_value c = Some d).
  { simpl in Hn. destruct (digit_value c); [eauto | done]. }
  destruct Hc as [d Hd]. clear Hn.
  unfold read_number.
  destruct c as [[] [] [] [] [] [] [] []];
    try (vm_compute in Hd; discriminate Hd);
    match goal with
    | |- context [skip_space (String ?c r)] =>
        change (skip_space (String c r)) with (String c r)
    end;
    cbv beta iota; by rewrite Hr.
Qed.

Lemma stoi_decimal (s : string) (n : Z) :
  decimal s = Some n →
  stoi s = if decide (n ≤ INT_MAX) then Ok n else Throw out_of_range.
Proof.
  intros Hn. unfold stoi. rewrite (read_number_decimal _ _ Hn).
  assert (0 ≤ n).
  { destruct s; [done |]. by apply (decimal_from_nonneg _ 0 n) in Hn. }
  unfold INT_MIN, INT_MAX in *. widths.
  rewrite (proj2 (Z.leb_le _ _)) by lia.
  case_decide.
  - by rewrite (proj2 (Z.leb_le _ _)) by lia.
  - by rewrite (proj2 (Z.leb_gt _ _)) by lia.
Qed.

Lemma stoull_decimal (s : string) (n : Z) :
  decimal s = Some n →
  stoull s = if decide (n ≤ ULLONG_MAX) then Ok n else Throw out_of_range.
Proof.
  intros Hn. unfold stoull. rewrite (read_number_decimal _ _ Hn).
  case_decide.
  - by rewrite (proj2 (Z.leb_le _ _)) by lia.
  - by rewrite (proj2 (Z.leb_gt _ _)) by lia.
Qed.

Section Counts.
Context {env : Collaborators}.

(** C8 on the code: a count above [INT_MAX], although it may fit 64
    unsigned bits, is not decoded: [std::stoi] throws and the completion
    block receives 0 with a malformed-JSON error, for [count] and for the
    delete operations alike. *)
Theorem count_above_int_max_is_an_error
    (count_payload delete_payload s : string) (n : Z) (j j' deleted : json) :
  decimal s = Some n →
  INT_MAX < n →
  parse_text count_payload = Some j →
  json_find j "$numberLong" = Some (JString s) →
  parse_text delete_payload = Some j' →
  json_find j' "deletedCount" = Some deleted →
  json_find deleted "$numberInt" = Some (JString s) →
  handle_count_response None (Some count_payload)
    = (0, Some (mkAppError malformed_json (what out_of_range)))
  ∧ handle_delete_count_response None (Some delete_payload)
    = (0, Some (mkAppError malformed_json (what out_of_range))).
Proof.
  intros Hs Hn Hj Hlong Hj' Hdeleted Hint.
  unfold handle_count_response, handle_delete_count_response, parse.
  rewrite Hj, Hj'. cbn [bind].
  rewrite (json_find_at _ _ _ Hlong), (json_find_at _ _ _ Hdeleted). cbn [bind].
  rewrite (json_find_at _ _ _ Hint). cbn [bind get_string].
  rewrite (stoi_decimal _ _ Hs). rewrite decide_False by lia.
  done.
Qed.

(** X28: up to [INT_MAX] the count is decoded as it stands. *)
Lemma count_within_int_is_decoded (payload s : string) (n : Z) (j : json) :
  decimal s = Some n →
  n ≤ INT_MAX →
  parse_text payload = Some j →
  json_find j "$numberLong" = Some (JString s) →
  handle_count_response None (Some payload) = (n, None).
Proof.
  intros Hs Hn Hj Hlong.
  assert (0 ≤ n).
  { destruct s; [done |]. by apply (decimal_from_nonneg _ 0 n) in Hs. }
  unfold handle_count_response, parse. rewrite Hj. cbn [bind].
  rewrite (json_find_at _ _ _ Hlong). cbn [bind get_string].
  rewrite (stoi_decimal _ _ Hs). rewrite decide_True by done.
  cbn [bind try_catch]. unfold to_uint64, INT_MAX in *. widths.
  by rewrite Z.mod_small by lia.
Qed.

End Counts.

(** ** The statements above on concrete calls *)

Section ConcreteCalls.
#[local] Existing Instance Sample.collaborators.

(** C2 at [count({"title":"Dune"}, 7)]. *)
Lemma count_limit_is_not_sent_witness :
  ∃ args,
    count_args Sample.books Sample.title_filter 7 = Ok args
    ∧ count Sample.books Sample.title_filter 7
      = invoke "count" (dump args)
          (handle_count_response)
    ∧ element_field "query" args = Some (JObject {["title" := JString "Dune"]})
    ∧ element_field "limit" args = None
    ∧ outer_field "limit" args = None.
Proof.
  apply (count_limit_is_not_sent
           Sample.books Sample.title_filter (JObject {["title" := JString "Dune"]}) 7).
  vm_compute. reflexivity.
Defined.

(** C1 at a call with the sort option [{"title":1}] and no projection. *)
Lemma sort_is_dropped_without_projection_witness :
  let find_options := RemoteFindOptions.mk (Some 5) None (Some Sample.by_title) in
  let modify_options :=
    RemoteFindOneAndModifyOptions.mk None (Some Sample.by_title) true false in
  (∃ args, find_args Sample.books
             Sample.title_filter find_options = Ok args
           ∧ document_field "sort" args = None)
  ∧ (∃ args, find_one_args Sample.books
               Sample.title_filter find_options = Ok args
             ∧ document_field "sort" args = None)
  ∧ (∃ args, find_one_and_update_args Sample.books
               Sample.title_filter Sample.set_title modify_options = Ok args
             ∧ document_field "sort" args = None)
  ∧ (∃ args, find_one_and_replace_args Sample.books
               Sample.title_filter Sample.set_title modify_options = Ok args
             ∧ document_field "sort" args = None)
  ∧ (∃ args, find_one_and_delete_args Sample.books
               Sample.title_filter modify_options = Ok args
             ∧ document_field "sort" args = None).
Proof.
  intros find_options modify_options.
  apply (sort_is_dropped_without_projection Sample.books
           Sample.title_filter Sample.set_title
           (JObject {["title" := JString "Dune"]})
           (JObject {["$set" := JObject {["title" := JString "Dune"]}]})
           find_options modify_options).
  - vm_compute. reflexivity.
  - vm_compute. reflexivity.
  - reflexivity.
  - reflexivity.
Defined.

(** C3 at [update_many] with [upsert = true] and at [find_one_and_delete]
    with all four modifiers given. *)
Lemma modifiers_on_the_envelope_witness :
  let options :=
    RemoteFindOneAndModifyOptions.mk (Some Sample.by_title) (Some Sample.by_title)
      true true in
  let many_args :=
    Sample.built (update_many_args Sample.books Sample.title_filter Sample.set_title true) in
  let delete_args :=
    Sample.built (find_one_and_delete_args Sample.books Sample.title_filter options) in
  element_field "upsert" many_args = None
  ∧ outer_field "upsert" many_args = Some (JBool true)
  ∧ (∀ key, key ∈ ["upsert"; "returnNewDocument"; "project"; "sort"] →
            element_field key delete_args = None)
  ∧ outer_field "upsert" delete_args
    = (if RemoteFindOneAndModifyOptions.upsert options then Some (JBool true) else None)
  ∧ outer_field "returnNewDocument" delete_args
    = (if RemoteFindOneAndModifyOptions.return_new_document options
       then Some (JBool true) else None)
  ∧ (is_Some (outer_field "project" delete_args)
     ↔ is_Some (RemoteFindOneAndModifyOptions.projection_json options))
  ∧ (is_Some (outer_field "sort" delete_args)
     ↔ is_Some (RemoteFindOneAndModifyOptions.projection_json options)).
Proof.
  intros options many_args delete_args.
  apply (modifiers_on_the_envelope Sample.books
           Sample.title_filter Sample.set_title true options many_args delete_args).
  - vm_compute. reflexivity.
  - vm_compute. reflexivity.
Defined.

(** C5 at a call whose sort text is the single character [{]. *)
Lemma malformed_sort_reaches_the_service_witness :
  let find_options := RemoteFindOptions.mk None None (Some "{") in
  let modify_options := RemoteFindOneAndModifyOptions.mk None (Some "{") false false in
  (∃ args r e, find Sample.books
                 Sample.title_filter find_options
               = [call_function "find" (dump args); completion_block r e])
  ∧ (∃ args r e, find_one Sample.books
                   Sample.title_filter find_options
                 = [call_function "findOne" (dump args);
                    completion_block r e])
  ∧ (∃ args r e, find_one_and_update Sample.books
                   Sample.title_filter Sample.set_title modify_options
                 = [call_function "findOneAndUpdate" (dump args);
                    completion_block r e])
  ∧ (∃ args r e, find_one_and_replace Sample.books
                   Sample.title_filter Sample.set_title modify_options
                 = [call_function "findOneAndReplace" (dump args);
                    completion_block r e])
  ∧ (∃ args r e, find_one_and_delete Sample.books
                   Sample.title_filter modify_options
                 = [call_function "findOneAndDelete" (dump args);
                    completion_block r e]).
Proof.
  intros find_options modify_options.
  apply (malformed_sort_reaches_the_service Sample.books
           Sample.title_filter Sample.set_title "{"
           (JObject {["title" := JString "Dune"]})
           (JObject {["$set" := JObject {["title" := JString "Dune"]}]})
           find_options modify_options).
  - vm_compute. reflexivity.
  - vm_compute. reflexivity.
  - vm_compute. reflexivity.
  - reflexivity.
  - reflexivity.
  - reflexivity.
  - reflexivity.
Defined.

(** C9 at a call with the projection [{"title":1}] and no sort option. *)
Lemma projection_without_sort_fails_locally_witness :
  let find_options := RemoteFindOptions.mk None (Some Sample.by_title) None in
  let modify_options :=
    RemoteFindOneAndModifyOptions.mk (Some Sample.by_title) None false false in
  (∃ e, find Sample.books Sample.title_filter find_options
        = [completion_block "" (Some (mkAppError malformed_json (what e)))])
  ∧ (∃ e, find_one Sample.books
            Sample.title_filter find_options
          = [completion_block "" (Some (mkAppError malformed_json (what e)))])
  ∧ (∃ e, find_one_and_update Sample.books
            Sample.title_filter Sample.set_title modify_options
          = [completion_block "" (Some (mkAppError malformed_json (what e)))])
  ∧ (∃ e, find_one_and_replace Sample.books
            Sample.title_filter Sample.set_title modify_options
          = [completion_block "" (Some (mkAppError malformed_json (what e)))])
  ∧ (∃ e, find_one_and_delete Sample.books
            Sample.title_filter modify_options
          = [completion_block tt (Some (mkAppError malformed_json (what e)))]).
Proof.
  intros find_options modify_options.
  apply (projection_without_sort_fails_locally Sample.books
           Sample.title_filter Sample.set_title find_options modify_options).
  - by eexists.
  - reflexivity.
  - by eexists.
  - reflexivity.
Defined.

(** C8 at the count 2147483648, one above [INT_MAX]. *)
Lemma count_above_int_max_is_an_error_witness :
  handle_count_response None
    (Some (Sample.count_payload "2147483648"))
    = (0, Some (mkAppError malformed_json (what out_of_range)))
  ∧ handle_delete_count_response None
      (Some (Sample.delete_payload "2147483648"))
    = (0, Some (mkAppError malformed_json (what out_of_range))).
Proof.
  apply (count_above_int_max_is_an_error
           (Sample.count_payload "2147483648") (Sample.delete_payload "2147483648")
           "2147483648" 2147483648
           (JObject {["$numberLong" := JString "2147483648"]})
           (JObject {["deletedCount" := JObject {["$numberInt" := JString "2147483648"]}]})
           (JObject {["$numberInt" := JString "2147483648"]})).
  - vm_compute. reflexivity.
  - vm_compute. reflexivity.
  - vm_compute. reflexivity.
  - vm_compute. reflexivity.
  - vm_compute. reflexivity.
  - vm_compute. reflexivity.
  - vm_compute. reflexivity.
Defined.

(** ** Decoding the payloads of the server *)

Example count_42 :
  handle_count_response None (Some (Sample.count_payload "42")) = (42, None).
Proof. vm_compute. reflexivity. Qed.

Example deleted_3 :
  handle_delete_count_response None (Some (Sample.delete_payload "3")) = (3, None).
Proof. vm_compute. reflexivity. Qed.

Example updated_2_1 :
  handle_update_response None (Some (Sample.update_payload "2" "1"))
  = (mkRemoteUpdateResult 2 1 "", None).
Proof. vm_compute. reflexivity. Qed.

Example inserted_a_b :
  insert_many_response None (Some Sample.inserted_payload)
  = (<[0 := "a"]> (<[1 := "b"]> ∅), None).
Proof. vm_compute. reflexivity. Qed.

Example malformed_filter_stays_local :
  find Sample.books "{" no_find_options
  = [completion_block "" (Some (mkAppError malformed_json "parse error: {"))].
Proof. vm_compute. reflexivity. Qed.

Example update_one_upsert_in_element :
  element_field "upsert"
    (Sample.built (update_one_args Sample.books Sample.title_filter Sample.set_title true))
  = Some (JBool true).
Proof. vm_compute. reflexivity. Qed.

End ConcreteCalls.

(** * Further properties of the operations *)

(** Case analysis on a builder that succeeded, under hypothesis [H]. *)
Ltac crack H :=
  repeat (step_in H;
          match type of H with
          | context [match parse_text ?t with _ => _ end] =>
              destruct (parse_text t) eqn:?
          | context [parse_each ?l ?a] =>
              destruct (parse_each l a) eqn:?
          | context [match ?o with Some _ => _ | None => _ end] =>
              is_var o; destruct o
          | context [value ?o] =>
              is_var o; destruct o
          | context [if ?b then _ else _] =>
              is_var b; destruct b
          end);
  step_in H; try discriminate H.

Ltac open_options :=
  repeat match goal with
         | o : RemoteFindOptions.t |- _ => destruct o as [? ? ?]
         | o : RemoteFindOneAndModifyOptions.t |- _ => destruct o as [? ? ? ?]
         end;
  cbn [RemoteFindOptions.limit RemoteFindOptions.projection_json
       RemoteFindOptions.sort_json
       RemoteFindOneAndModifyOptions.projection_json
       RemoteFindOneAndModifyOptions.sort_json
       RemoteFindOneAndModifyOptions.upsert
       RemoteFindOneAndModifyOptions.return_new_document] in *.

Ltac unfold_builders H :=
  unfold request_args, find_args, find_one_args, insert_one_args, aggregate_args,
    count_args, insert_many_args, delete_one_args, delete_many_args,
    update_one_args, update_many_args, find_one_and_update_args,
    find_one_and_replace_args, find_one_and_delete_args, parse in H.

(** Replace the texts in the goal by what they were found to parse to. *)
Ltac use_parses :=
  cbn [mbind option_bind];
  repeat match goal with
         | H : parse_text ?t = _ |- context [parse_text ?t] => rewrite H
         end.

Ltac unfold_builders_goal :=
  unfold request_args, find_args, find_one_args, insert_one_args, aggregate_args,
    count_args, insert_many_args, delete_one_args, delete_many_args,
    update_one_args, update_many_args, find_one_and_update_args,
    find_one_and_replace_args, find_one_and_delete_args, parse.

(** Case analysis on the options a builder tests, in the goal. *)
Ltac branch :=
  repeat (step;
          match goal with
          | |- context [match ?o with Some _ => _ | None => _ end] =>
              is_var o; destruct o
          | |- context [value ?o] =>
              is_var o; destruct o
          | |- context [if ?b then _ else _] =>
              is_var b; destruct b
          end);
  step.

Section EveryOperation.
Context {env : Collaborators}.
Variable self : RemoteMongoCollection.

(** Each operation is its builder followed by the call, or by the
    [catch] clause. *)
Lemma perform_unfold (r : request) :
  perform self r =
  match request_args self r with
  | Ok args =>
      let reply := m_service (function_name r) (dump args) in
      let decoded := decoder r reply.1 reply.2 in
      [call_function (function_name r) (dump args);
       completion_block decoded.1 decoded.2]
  | Throw e => [completion_block (empty_outcome r) (malformed e)]
  end.
Proof.
  destruct r; cbn [perform request_args function_name decoder empty_outcome];
    unfold find, find_one, insert_one, aggregate, count, insert_many, delete_one,
      delete_many, update_one, update_many, find_one_and_update,
      find_one_and_replace, find_one_and_delete;
    match goal with
    | |- context [try_catch (bind ?b _) _] => destruct b as [args | e]
    end;
    cbn [bind try_catch]; try reflexivity;
    unfold invoke;
    match goal with
    | |- context [m_service ?n ?a] => destruct (m_service n a) as [error payload]
    end;
    cbn [fst snd];
    match goal with
    | |- context [prod_map _ _ ?d] => destruct d as [x e']
    end;
    reflexivity.
Qed.


(** X2: when the argument document is built and the service answers the
    call with an error, the operation completes with that error and its
    empty result, whatever payload came along. *)
Theorem transport_error_reaches_the_caller
    (r : request) (args : json) (e : AppError) (payload : option string) :
  request_args self r = Ok args →
  m_service (function_name r) (dump args) = (Some e, payload) →
  perform self r
  = [call_function (function_name r) (dump args);
     completion_block (empty_outcome r) (Some e)].
Proof.
  intros Hargs Hreply. rewrite perform_unfold, Hargs. cbn zeta. rewrite Hreply.
  destruct r; cbn [decoder empty_outcome fst snd]; by destruct payload.
Qed.

(** X3: when the service answers without error, the six operations that
    return documents hand the payload text to the completion block as it
    is, without reading it. *)
Theorem payload_text_is_handed_over
    (r : request) (args : json) (payload : string) :
  empty_outcome r = returned_text "" →
  request_args self r = Ok args →
  m_service (function_name r) (dump args) = (None, Some payload) →
  perform self r
  = [call_function (function_name r) (dump args);
     completion_block (returned_text payload) None].
Proof.
  intros Htext Hargs Hreply. rewrite perform_unfold, Hargs. cbn zeta. rewrite Hreply.
  destruct r; cbn [empty_outcome] in Htext; try discriminate Htext; reflexivity.
Qed.

(** X4: every argument document any operation builds has, inside the
    single element of [arguments], the database name under [database] and
    the collection name under [collection], whatever the texts and
    options are. *)
Theorem identity_in_every_document (r : request) (args : json) :
  request_args self r = Ok args →
  element_field "database" args = Some (JString (database_name self))
  ∧ element_field "collection" args = Some (JString (name self)).
Proof.
  intros Hargs. destruct r; unfold_builders Hargs; open_options;
    crack Hargs; injection Hargs as <-; split; lookup_fields.
Qed.

(** X5: the filter an operation was given (the document, for
    [insert_one]) is in the element of every document it builds, parsed,
    under [query] ([document]). *)
Theorem filter_is_sent_parsed (r : request) (filter_json : string) (args : json) :
  filter_of r = Some filter_json →
  request_args self r = Ok args →
  element_field (filter_member r) args = parse_text filter_json.
Proof.
  intros Hfilter Hargs.
  destruct r; cbn [filter_of] in Hfilter; try discriminate Hfilter;
    injection Hfilter as ->; cbn [filter_member];
    unfold_builders Hargs; open_options;
    crack Hargs; injection Hargs as <-; lookup_fields.
Qed.

(** The loops of [aggregate] and [insert_many]. *)
Lemma parse_each_all (texts : list string) :
  ∀ (parsed array : list json),
    Forall2 (λ text j, parse_text text = Some j) texts parsed →
    parse_each texts array = Ok (array ++ parsed).
Proof.
  induction texts as [| text texts IH]; intros parsed array Hall.
  - apply Forall2_nil_inv_l in Hall as ->. by rewrite app_nil_r.
  - apply Forall2_cons_inv_l in Hall as (j & parsed' & Hj & Hall & ->).
    cbn [parse_each]. unfold parse. rewrite Hj. cbn [bind].
    rewrite (IH parsed' (array ++ [j]) Hall). by rewrite <- app_assoc.
Qed.

Lemma parse_each_first_failure (good : list string) (bad : string) (rest : list string) :
  ∀ array : list json,
    Forall (λ text, is_Some (parse_text text)) good →
    parse_text bad = None →
    parse_each (good ++ bad :: rest) array = Throw (parse_error bad).
Proof.
  induction good as [| text good IH]; intros array Hgood Hbad.
  - cbn [app parse_each]. unfold parse. by rewrite Hbad.
  - apply Forall_cons in Hgood as [[j Hj] Hgood].
    cbn [app parse_each]. unfold parse. rewrite Hj. cbn [bind]. by apply IH.
Qed.

(** X6: when the filter of an operation (the document, for [insert_one])
    does not parse, the operation does not call the service: it invokes
    the completion block once, with its empty result and a malformed-JSON
    error carrying the parser's diagnostic for that text, whatever the
    other arguments are. *)
Theorem malformed_filter_is_a_local_failure (r : request) (filter_json : string) :
  filter_of r = Some filter_json →
  parse_text filter_json = None →
  perform self r
  = [completion_block (empty_outcome r)
       (Some (mkAppError malformed_json (what (parse_error filter_json))))].
Proof.
  intros Hfilter Hparse. rewrite perform_unfold.
  assert (request_args self r = Throw (parse_error filter_json)) as ->; [| done].
  destruct r; cbn [filter_of] in Hfilter; try discriminate Hfilter;
    injection Hfilter as ->; unfold_builders_goal; by rewrite Hparse.
Qed.

(** X7: when the filter parses and the update (or replacement) text does
    not, the four operations that take one fail locally in the same way,
    with the diagnostic for the update text. *)
Theorem malformed_update_is_a_local_failure
    (r : request) (filter_json update_json : string) (query : json) :
  filter_of r = Some filter_json →
  parse_text filter_json = Some query →
  update_of r = Some update_json →
  parse_text update_json = None →
  perform self r
  = [completion_block (empty_outcome r)
       (Some (mkAppError malformed_json (what (parse_error update_json))))].
Proof.
  intros Hfilter Hquery Hupdate Hparse. rewrite perform_unfold.
  assert (request_args self r = Throw (parse_error update_json)) as ->; [| done].
  destruct r; cbn [filter_of update_of] in Hfilter, Hupdate;
    try discriminate Hupdate;
    injection Hfilter as ->; injection Hupdate as ->;
    unfold_builders_goal; rewrite Hquery; step; by rewrite Hparse.
Qed.

(** X8: when the filter and the update parse and the projection text
    does not, the five operations that take a projection fail locally
    with the diagnostic for the projection text, whether or not a sort
    option is given. *)
Theorem malformed_projection_is_a_local_failure
    (r : request) (filter_json projection : string) (query : json) :
  filter_of r = Some filter_json →
  parse_text filter_json = Some query →
  (∀ update_json, update_of r = Some update_json → is_Some (parse_text update_json)) →
  projection_of r = Some projection →
  parse_text projection = None →
  perform self r
  = [completion_block (empty_outcome r)
       (Some (mkAppError malformed_json (what (parse_error projection))))].
Proof.
  intros Hfilter Hquery Hupdate Hprojection Hparse. rewrite perform_unfold.
  assert (request_args self r = Throw (parse_error projection)) as ->; [| done].
  destruct r; cbn [filter_of update_of projection_of] in Hfilter, Hupdate, Hprojection;
    try discriminate Hprojection;
    injection Hfilter as ->; open_options; subst;
    try (destruct (Hupdate _ eq_refl) as [update Hu]);
    unfold_builders_goal; open_options; rewrite Hquery; step;
    try (rewrite Hu; step);
    branch; by rewrite Hparse.
Qed.

(** X9: when a pipeline stage of [aggregate] (a document of
    [insert_many]) does not parse and all those before it do, the
    operation fails locally with the diagnostic for that text; nothing is
    sent of the texts that did parse. *)
Theorem malformed_stage_is_a_local_failure
    (r : request) (good : list string) (bad : string) (rest : list string) :
  r = Aggregate (good ++ bad :: rest) ∨ r = InsertMany (good ++ bad :: rest) →
  Forall (λ text, is_Some (parse_text text)) good →
  parse_text bad = None →
  perform self r
  = [completion_block (empty_outcome r)
       (Some (mkAppError malformed_json (what (parse_error bad))))].
Proof.
  intros Hr Hgood Hbad. rewrite perform_unfold.
  assert (request_args self r = Throw (parse_error bad)) as ->; [| done].
  destruct Hr as [-> | ->]; unfold_builders_goal;
    by rewrite (parse_each_first_failure good bad rest [] Hgood Hbad).
Qed.

(** X10: when every stage of the pipeline parses, [aggregate] sends them,
    parsed and in the order given, as the array under [pipeline] in the
    element; [insert_many] does the same with its documents under
    [documents].  An empty list is sent as an empty array. *)
Theorem stages_are_sent_in_order (texts : list string) (parsed : list json) :
  Forall2 (λ text j, parse_text text = Some j) texts parsed →
  (∃ args, aggregate_args self texts = Ok args
           ∧ element_field "pipeline" args = Some (JArray parsed)
           ∧ perform self (Aggregate texts)
             = observe returned_text (invoke "aggregate" (dump args) handle_response))
  ∧ (∃ args, insert_many_args self texts = Ok args
             ∧ element_field "documents" args = Some (JArray parsed)
             ∧ perform self (InsertMany texts)
               = observe returned_ids (invoke "insertMany" (dump args) insert_many_response)).
Proof.
  intros Hall. pose proof (parse_each_all texts parsed [] Hall) as Heach.
  rewrite app_nil_l in Heach.
  cbn [perform]. unfold aggregate, insert_many, aggregate_args, insert_many_args.
  rewrite Heach. step.
  split; eexists; (split; [reflexivity |]); (split; [lookup_fields | reflexivity]).
Qed.

(** X11: the update (or replacement) text of the four operations that
    take one is in the element of every document they build, parsed,
    under [update]. *)
Theorem update_is_sent_parsed (r : request) (update_json : string) (args : json) :
  update_of r = Some update_json →
  request_args self r = Ok args →
  element_field "update" args = parse_text update_json.
Proof.
  intros Hupdate Hargs.
  destruct r; cbn [update_of] in Hupdate; try discriminate Hupdate;
    injection Hupdate as ->;
    unfold_builders Hargs; open_options;
    crack Hargs; injection Hargs as <-; lookup_fields.
Qed.

(** X12: [find] and [find_one] put the limit and the parsed projection on
    the outer envelope, beside [arguments], and not into the element: the
    envelope has [limit] exactly when the limit option is present, with
    its value, and [project] exactly when the projection option is. *)
Theorem find_options_on_the_envelope
    (filter_json : string) (options : RemoteFindOptions.t) (args : json) :
  find_args self filter_json options = Ok args
  ∨ find_one_args self filter_json options = Ok args →
  outer_field "limit" args = JInt <$> RemoteFindOptions.limit options
  ∧ outer_field "project" args
    = RemoteFindOptions.projection_json options ≫= parse_text
  ∧ (∀ key, key ∈ ["limit"; "project"; "sort"] → element_field key args = None).
Proof.
  intros [Hargs | Hargs]; unfold_builders Hargs; open_options;
    crack Hargs; injection Hargs as <-;
    (split_and!;
     [ lookup_fields
     | use_parses; lookup_fields
     | intros key Hkey; repeat (apply elem_of_cons in Hkey as [-> | Hkey]);
       [lookup_fields .. | by apply elem_of_nil in Hkey] ]).
Qed.

(** X13: [find_one_and_replace] stores the replacement in the element
    under [update] and puts its modifiers on the outer envelope:
    [upsert] and [returnNewDocument] only when set, then with the value
    [true], and [project] when a projection is given. *)
Theorem replace_modifiers_on_the_envelope
    (filter_json replacement_json : string)
    (options : RemoteFindOneAndModifyOptions.t) (args : json) :
  find_one_and_replace_args self filter_json replacement_json options = Ok args →
  element_field "update" args = parse_text replacement_json
  ∧ (∀ key, key ∈ ["upsert"; "returnNewDocument"; "project"; "sort"] →
            element_field key args = None)
  ∧ outer_field "upsert" args
    = (if RemoteFindOneAndModifyOptions.upsert options then Some (JBool true) else None)
  ∧ outer_field "returnNewDocument" args
    = (if RemoteFindOneAndModifyOptions.return_new_document options
       then Some (JBool true) else None)
  ∧ outer_field "project" args
    = RemoteFindOneAndModifyOptions.projection_json options ≫= parse_text.
Proof.
  intros Hargs. unfold_builders Hargs; open_options;
    crack Hargs; injection Hargs as <-;
    (split_and!;
     [ lookup_fields
     | intros key Hkey; repeat (apply elem_of_cons in Hkey as [-> | Hkey]);
       [lookup_fields .. | by apply elem_of_nil in Hkey]
     | lookup_fields
     | lookup_fields
     | use_parses; lookup_fields ]).
Qed.

End EveryOperation.

(** * Further properties of the decoders *)

(** ** What std::stoi and std::stoull accept *)

Lemma read_digits_nonneg (s : string) :
  ∀ acc seen m, 0 ≤ acc → read_digits s acc seen = Some m → 0 ≤ m.
Proof.
  induction s as [| c r IH]; intros acc seen m Hacc Hm; simpl in Hm.
  - destruct seen; [by injection Hm as <- | done].
  - destruct (digit_value c) as [d |] eqn:Hd.
    + apply digit_value_bounds in Hd as [Hd _].
      apply (IH (10 * acc + d) true); [lia | done].
    + destruct seen; [by injection Hm as <- | done].
Qed.

Lemma read_number_nonneg (s : string) (neg : bool) (m : Z) :
  read_number s = Some (neg, m) → 0 ≤ m.
Proof.
  unfold read_number.
  assert (Hpair : ∀ b t, pair b <$> read_digits t 0 false = Some (neg, m) → 0 ≤ m).
  { intros b t Ht. destruct (read_digits t 0 false) as [m' |] eqn:Hm'; [| done].
    injection Ht as _ <-. by apply (read_digits_nonneg t 0 false). }
  destruct (skip_space s) as [| c r]; [apply Hpair |].
  destruct c as [[] [] [] [] [] [] [] []]; apply Hpair.
Qed.

Lemma stoull_range (s : string) (v : Z) :
  stoull s = Ok v → 0 ≤ v < 2 ^ 64.
Proof.
  unfold stoull. destruct (read_number s) as [[neg m] |] eqn:Hm; [| done].
  apply read_number_nonneg in Hm.
  destruct (m <=? ULLONG_MAX) eqn:Hle; [| done].
  apply Z.leb_le in Hle. unfold ULLONG_MAX in Hle.
  intros [= <-]. destruct neg.
  - unfold to_uint64. apply Z.mod_pos_bound. done.
  - widths. lia.
Qed.

Lemma to_uint64_range (z : Z) : 0 ≤ to_uint64 z < 2 ^ 64.
Proof. unfold to_uint64. apply Z.mod_pos_bound. done. Qed.

Lemma read_number_minus (s : string) :
  read_number (String "-"%char s) = pair true <$> read_digits s 0 false.
Proof. reflexivity. Qed.

Lemma read_number_digit_first (c : ascii) (r : string) (d : Z) :
  digit_value c = Some d →
  read_number (String c r) = pair false <$> read_digits (String c r) 0 false.
Proof.
  intros Hd. unfold read_number.
  destruct c as [[] [] [] [] [] [] [] []];
    try (vm_compute in Hd; discriminate Hd); reflexivity.
Qed.

Lemma read_digits_trailing (s : string) (c : ascii) (rest : string) :
  ∀ acc seen n,
    decimal_from s acc = Some n → digit_value c = None →
    seen = true ∨ s ≠ EmptyString →
    read_digits (s +:+ String c rest) acc seen = Some n.
Proof.
  induction s as [| c' r IH]; intros acc seen n Hn Hc Hseen; simpl in *.
  - rewrite Hc. destruct Hseen as [-> | ?]; [congruence | congruence].
  - destruct (digit_value c') as [d |]; [| done].
    apply IH; [done | done | by left].
Qed.

Lemma stoi_minus (s : string) (n : Z) :
  decimal s = Some n → n ≤ 2 ^ 31 → stoi (String "-"%char s) = Ok (- n).
Proof.
  intros Hn Hle. unfold stoi. rewrite read_number_minus.
  assert (Hr : read_digits s 0 false = Some n).
  { destruct s; [done |]. apply read_digits_decimal; [done | by right]. }
  assert (0 ≤ n) by (by apply (read_digits_nonneg s 0 false)).
  rewrite Hr. cbn [fmap option_fmap option_map].
  unfold INT_MIN, INT_MAX. widths.
  rewrite (proj2 (Z.leb_le _ _)) by lia.
  by rewrite (proj2 (Z.leb_le _ _)) by lia.
Qed.

Lemma stoi_trailing (s : string) (c : ascii) (rest : string) (n : Z) :
  decimal s = Some n → n ≤ INT_MAX → digit_value c = None →
  stoi (s +:+ String c rest) = Ok n.
Proof.
  intros Hn Hle Hc. unfold stoi.
  destruct s as [| c0 r0]; [done |]. unfold decimal in Hn.
  assert (Hd : ∃ d, digit_value c0 = Some d).
  { simpl in Hn. destruct (digit_value c0); [eauto | done]. }
  destruct Hd as [d Hd].
  assert (0 ≤ n) by (by apply (decimal_from_nonneg _ 0 n) in Hn).
  change (String c0 r0 +:+ String c rest) with (String c0 (r0 +:+ String c rest)).
  rewrite (read_number_digit_first _ _ _ Hd).
  change (String c0 (r0 +:+ String c rest)) with (String c0 r0 +:+ String c rest).
  rewrite (read_digits_trailing _ _ _ 0 false n Hn Hc) by (by right).
  cbn [fmap option_fmap option_map].
  unfold INT_MIN, INT_MAX in *. widths.
  rewrite (proj2 (Z.leb_le _ _)) by lia.
  by rewrite (proj2 (Z.leb_le _ _)) by lia.
Qed.

(** ** What the decoders deliver *)

(** The body of a decoder's [try] block, when it returns, returns the
    service's (absent) error. *)
Ltac open_try Hb :=
  repeat (apply bind_Ok in Hb as (? & ? & Hb)); injection Hb as <- <-.

Section Delivered.
Context {env : Collaborators}.

(** X14: whatever the service answers, a decoder never delivers an error
    together with a result: when it hands an error to the completion
    block, the result beside it is the empty result of the operation. *)
Theorem an_error_comes_with_the_empty_result
    (r : request) (error : option AppError) (payload : option string) :
  (decoder r error payload).2 = None
  ∨ (decoder r error payload).1 = empty_outcome r.
Proof.
  destruct r; cbn [decoder empty_outcome];
    unfold handle_response, handle_count_response, handle_delete_count_response,
      handle_update_response, insert_many_response, find_one_and_delete_response;
    destruct payload as [v |], error as [e |]; cbn [prod_map fst snd]; auto;
    match goal with
    | |- context [try_catch ?b _] => destruct b as [[x e] |] eqn:Hb
    end;
    cbn [try_catch prod_map fst snd]; auto;
    left; by open_try Hb.
Qed.

(** X15: the error a decoder delivers is the error the service reported,
    unchanged, or else, when the service reported none, a malformed-JSON
    error raised here; the decoders of the operations that return
    documents, and of [find_one_and_delete], never raise one. *)
Theorem errors_are_forwarded_or_local
    (r : request) (error : option AppError) (payload : option string) :
  (decoder r error payload).2 = error
  ∨ (error = None
     ∧ empty_outcome r ≠ returned_text "" ∧ empty_outcome r ≠ returned_nothing
     ∧ ∃ x, (decoder r error payload).2 = Some (mkAppError malformed_json (what x))).
Proof.
  destruct r; cbn [decoder empty_outcome];
    unfold handle_response, handle_count_response, handle_delete_count_response,
      handle_update_response, insert_many_response, find_one_and_delete_response;
    destruct payload as [v |], error as [e |]; cbn [prod_map fst snd]; auto;
    match goal with
    | |- context [try_catch ?b _] => destruct b as [[x e] | x] eqn:Hb
    end;
    cbn [try_catch prod_map fst snd];
    first [ left; by open_try Hb
          | right; split_and!; [done | done | done | by exists x] ].
Qed.

(** X16: every count a decoder delivers is a value of [uint64_t]: the
    counts of [count] and of the delete operations, and the matched and
    modified counts of an update result, lie in [0, 2^64). *)
Theorem delivered_counts_fit_uint64 (error : option AppError) (payload : option string) :
  0 ≤ (handle_count_response error payload).1 < 2 ^ 64
  ∧ 0 ≤ (handle_delete_count_response error payload).1 < 2 ^ 64
  ∧ 0 ≤ matched_count (handle_update_response error payload).1 < 2 ^ 64
  ∧ 0 ≤ modified_count (handle_update_response error payload).1 < 2 ^ 64.
Proof.
  unfold handle_count_response, handle_delete_count_response, handle_update_response.
  destruct payload as [v |], error as [e |]; cbn [fst snd matched_count modified_count
                                                   empty_update_result];
    try (split_and!; done).
  split_and!;
    match goal with
    | |- context [try_catch ?b _] => destruct b as [[x e] | x] eqn:Hb
    end;
    cbn [try_catch fst snd matched_count modified_count empty_update_result];
    try done.
  all: repeat (apply bind_Ok in Hb as (? & ? & Hb)); injection Hb as <- _;
    cbn [matched_count modified_count];
    repeat match goal with
           | H : stoull _ = Ok _ |- _ => apply stoull_range in H
           end;
    try match goal with
        | |- context [to_uint64 ?n] => pose proof (to_uint64_range n)
        end;
    tauto.
Qed.

End Delivered.

(** ** The identifiers of insertMany *)

Lemma lookup_map_insert_is_Some `{Countable K} {V : Type}
    (k k' : K) (v : V) (m : gmap K V) :
  is_Some (map_insert k v m !! k') → k = k' ∨ is_Some (m !! k').
Proof.
  destruct (decide (k = k')) as [-> | Hne]; [by left |].
  rewrite lookup_map_insert_ne by done. by right.
Qed.

Section Identifiers.
Context {env : Collaborators}.

Lemma map_oids_keys (inserted_ids : list json) :
  ∀ (mapped_oids : gmap Z string) (i : Z) (m : gmap Z string),
    map_oids inserted_ids mapped_oids i = Ok m →
    (∀ k, is_Some (mapped_oids !! k) → 0 ≤ k < 2 ^ 64) →
    ∀ k, is_Some (m !! k) → 0 ≤ k < 2 ^ 64.
Proof.
  induction inserted_ids as [| inserted_id rest IH]; intros mapped_oids i m Hm Hkeys.
  - injection Hm as <-. done.
  - cbn [map_oids] in Hm.
    apply bind_Ok in Hm as (oid_json & _ & Hm).
    apply bind_Ok in Hm as (oid & _ & Hm).
    apply (IH _ _ _ Hm).
    intros k Hk. apply lookup_map_insert_is_Some in Hk as [<- | Hk].
    + apply to_uint64_range.
    + by apply Hkeys.
Qed.

Lemma map_oids_members (inserted_ids : list json) (ids : list string) :
  Forall2 (λ inserted_id id, json_find inserted_id "$oid" = Some (JString id))
    inserted_ids ids →
  ∀ (mapped_oids : gmap Z string) (i : Z),
    0 ≤ i → i + Z.of_nat (List.length ids) ≤ INT_MAX →
    (∀ k, i ≤ k → mapped_oids !! k = None) →
    ∃ m, map_oids inserted_ids mapped_oids i = Ok m
         ∧ ∀ k, m !! k = if decide (i ≤ k)
                         then ids !! Z.to_nat (k - i)
                         else mapped_oids !! k.
Proof.
  unfold INT_MAX.
  induction 1 as [| inserted_id id inserted_ids ids Hid _ IH];
    intros mapped_oids i Hi Hlen Hfree; widths.
  - exists mapped_oids. split; [done |].
    intros k. case_decide; [by rewrite Hfree | done].
  - cbn [map_oids]. rewrite (json_find_at _ _ _ Hid). cbn [bind get_string].
    rewrite length_cons in Hlen.
    assert (Hi64 : to_uint64 i = i).
    { unfold to_uint64. widths. apply Z.mod_small. lia. }
    assert (Hnext : to_int (i + 1) = i + 1).
    { unfold to_int. widths. rewrite Z.mod_small; lia. }
    rewrite Hi64, Hnext.
    destruct (IH (map_insert i id mapped_oids) (i + 1)) as (m & Hm & Hlookup).
    + lia.
    + lia.
    + intros k Hk. rewrite lookup_map_insert_ne by lia. apply Hfree. lia.
    + exists m. split; [done |].
      intros k. rewrite Hlookup.
      destruct (decide (i + 1 ≤ k)) as [Hk | Hk].
      * rewrite decide_True by lia.
        replace (Z.to_nat (k - i)) with (S (Z.to_nat (k - (i + 1)))) by lia.
        done.
      * destruct (decide (i ≤ k)) as [Hk' | Hk'].
        -- assert (k = i) as -> by lia.
           rewrite lookup_map_insert_fresh by (apply Hfree; lia).
           by replace (i - i) with 0 by lia.
        -- by rewrite lookup_map_insert_ne by lia.
Qed.

Lemma map_oids_first_failure (good : list json) (bad : json) (rest : list json)
    (x : exception) :
  Forall (λ inserted_id, ∃ id, json_find inserted_id "$oid" = Some (JString id)) good →
  (let* oid_json := json_at bad "$oid" in get_string oid_json) = Throw x →
  ∀ (mapped_oids : gmap Z string) (i : Z),
    map_oids (good ++ bad :: rest) mapped_oids i = Throw x.
Proof.
  intros Hgood Hbad.
  induction Hgood as [| inserted_id good [id Hid] _ IH]; intros mapped_oids i.
  - cbn [app map_oids].
    destruct (json_at bad "$oid") as [oid_json |]; cbn [bind] in *.
    + by rewrite Hbad.
    + by injection Hbad as ->.
  - cbn [app map_oids]. rewrite (json_find_at _ _ _ Hid). cbn [bind get_string].
    apply IH.
Qed.

(** X17: every key of the mapping the [insertMany] decoder delivers is a
    value of [uint64_t]. *)
Theorem inserted_keys_fit_uint64
    (error : option AppError) (payload : option string) (k : Z) (id : string) :
  (insert_many_response error payload).1 !! k = Some id →
  0 ≤ k < 2 ^ 64.
Proof.
  unfold insert_many_response.
  destruct payload as [v |], error as [e |]; cbn [fst]; try done.
  destruct (bind _ _) as [[m e] | x] eqn:Hb; cbn [try_catch fst]; [| done].
  repeat (apply bind_Ok in Hb as (? & ? & Hb)). injection Hb as <- _.
  intros Hk. eapply map_oids_keys; [done | | by eexists].
  intros k' [? Hk']. done.
Qed.

(** X18: the [insertMany] decoder reads only the [$oid] member of each
    element of [insertedIds]: whatever else the elements hold, as long as
    each has a string under [$oid] (and there are no more of them than an
    [int] counts), it delivers no error and the mapping from each index,
    counted from 0, to the identifier at that place, with as many entries
    as the array has elements. *)
Theorem inserted_ids_ignore_other_members
    (payload : string) (j : json) (inserted_ids : list json) (ids : list string) :
  parse_text payload = Some j →
  json_find j "insertedIds" = Some (JArray inserted_ids) →
  Forall2 (λ inserted_id id, json_find inserted_id "$oid" = Some (JString id))
    inserted_ids ids →
  Z.of_nat (List.length ids) ≤ INT_MAX →
  ∃ m, insert_many_response None (Some payload) = (m, None)
       ∧ (∀ k : Z, m !! k = if decide (0 ≤ k) then ids !! Z.to_nat k else None)
       ∧ size m = List.length inserted_ids.
Proof.
  intros Hparse Hfield Hids Hlen.
  destruct (map_oids_members inserted_ids ids Hids ∅ 0) as (m & Hm & Hlookup);
    [lia | lia | done |].
  assert (Hm' : ∀ k : Z, m !! k = if decide (0 ≤ k) then ids !! Z.to_nat k else None).
  { intros k. rewrite Hlookup. case_decide; [| done].
    by replace (k - 0) with k by lia. }
  exists m. split_and!; [| done |].
  - unfold insert_many_response, parse. rewrite Hparse. cbn [bind].
    rewrite (json_find_at _ _ _ Hfield). cbn [bind get_vector].
    rewrite Hm. done.
  - rewrite (Forall2_length _ _ _ Hids).
    assert (m = list_to_map (zip (Z.of_nat <$> seq 0 (List.length ids)) ids)) as ->.
    { apply map_eq. intros k. rewrite Hm'.
      destruct (decide (0 ≤ k)) as [Hk | Hk].
      - destruct (ids !! Z.to_nat k) as [id |] eqn:Hid.
        + symmetry. apply elem_of_list_to_map_1.
          * rewrite fst_zip by (by rewrite length_fmap, length_seq).
            apply (NoDup_fmap_2 _). apply NoDup_seq.
          * apply list_elem_of_lookup. exists (Z.to_nat k).
            apply lookup_zip_with_Some. exists k, id. split_and!; [done | | done].
            rewrite list_lookup_fmap, lookup_seq_lt by (by eapply lookup_lt_Some).
            simpl. f_equal. lia.
        + symmetry. apply not_elem_of_list_to_map_1.
          rewrite fst_zip by (by rewrite length_fmap, length_seq).
          intros Hin. apply list_elem_of_fmap in Hin as (n & -> & Hn).
          apply elem_of_seq in Hn. apply lookup_ge_None in Hid. lia.
      - symmetry. apply not_elem_of_list_to_map_1.
        rewrite fst_zip by (by rewrite length_fmap, length_seq).
        intros Hin. apply list_elem_of_fmap in Hin as (n & -> & Hn). lia. }
    rewrite map_size_list_to_map.
    + by rewrite length_zip, length_fmap, length_seq, Nat.min_id.
    + rewrite fst_zip by (by rewrite length_fmap, length_seq).
      apply (NoDup_fmap_2 _). apply NoDup_seq.
Qed.

(** X19: one element of [insertedIds] without a string under [$oid] makes
    the [insertMany] decoder deliver the empty mapping with a
    malformed-JSON error: the identifiers read before it are dropped. *)
Theorem one_bad_id_discards_all
    (payload : string) (j : json) (good : list json) (bad : json) (rest : list json)
    (x : exception) :
  parse_text payload = Some j →
  json_find j "insertedIds" = Some (JArray (good ++ bad :: rest)) →
  Forall (λ inserted_id, ∃ id, json_find inserted_id "$oid" = Some (JString id)) good →
  (let* oid_json := json_at bad "$oid" in get_string oid_json) = Throw x →
  insert_many_response None (Some payload)
  = (∅, Some (mkAppError malformed_json (what x))).
Proof.
  intros Hparse Hfield Hgood Hbad.
  unfold insert_many_response, parse. rewrite Hparse. cbn [bind].
  rewrite (json_find_at _ _ _ Hfield). cbn [bind get_vector].
  by rewrite (map_oids_first_failure good bad rest x Hgood Hbad).
Qed.

End Identifiers.

(** ** Payloads that are not what the decoders expect *)

Section Payloads.
Context {env : Collaborators}.

(** X20: a count given with a minus sign is not refused: [std::stoi]
    yields the negative [int], and its conversion to [uint64_t] delivers
    2^64 minus the magnitude, with no error. *)
Theorem negative_count_wraps (payload s : string) (n : Z) (j : json) :
  decimal s = Some n →
  1 ≤ n ≤ 2 ^ 31 →
  parse_text payload = Some j →
  json_find j "$numberLong" = Some (JString (String "-"%char s)) →
  handle_count_response None (Some payload) = (2 ^ 64 - n, None).
Proof.
  intros Hs Hn Hj Hlong.
  unfold handle_count_response, parse. rewrite Hj. cbn [bind].
  rewrite (json_find_at _ _ _ Hlong). cbn [bind get_string].
  rewrite (stoi_minus _ _ Hs) by lia. cbn [bind try_catch].
  f_equal. unfold to_uint64. widths.
  replace (- n) with ((18446744073709551616 - n) + (- 1) * 18446744073709551616) by lia.
  rewrite Z.mod_add by lia. apply Z.mod_small. lia.
Qed.

(** X21: text after the digits of a count is ignored: digits followed by
    any character that is not a digit decode to the value of the digits
    (up to [INT_MAX]), with no error. *)
Theorem count_ignores_trailing_text
    (payload s : string) (c : ascii) (rest : string) (n : Z) (j : json) :
  decimal s = Some n →
  n ≤ INT_MAX →
  digit_value c = None →
  parse_text payload = Some j →
  json_find j "$numberLong" = Some (JString (s +:+ String c rest)) →
  handle_count_response None (Some payload) = (n, None).
Proof.
  intros Hs Hn Hc Hj Hlong.
  assert (0 ≤ n).
  { destruct s; [done |]. by apply (decimal_from_nonneg _ 0 n) in Hs. }
  unfold handle_count_response, parse. rewrite Hj. cbn [bind].
  rewrite (json_find_at _ _ _ Hlong). cbn [bind get_string].
  rewrite (stoi_trailing _ _ _ _ Hs Hn Hc). cbn [bind try_catch].
  unfold to_uint64, INT_MAX in *. widths.
  by rewrite Z.mod_small by lia.
Qed.

(** X22: when the service reports success with a payload that does not
    parse, each decoder that reads its payload delivers its empty result
    and a malformed-JSON error with the parser's diagnostic for the
    payload. *)
Theorem unparseable_payload_is_malformed (payload : string) :
  parse_text payload = None →
  let error := Some (mkAppError malformed_json (what (parse_error payload))) in
  handle_count_response None (Some payload) = (0, error)
  ∧ handle_delete_count_response None (Some payload) = (0, error)
  ∧ handle_update_response None (Some payload) = (empty_update_result, error)
  ∧ insert_many_response None (Some payload) = (∅, error).
Proof.
  intros Hparse error.
  unfold handle_count_response, handle_delete_count_response,
    handle_update_response, insert_many_response, parse.
  by rewrite Hparse.
Qed.

(** X23: each decoder that reads its payload fails on an object that
    lacks the member it reads first, whatever else the object holds:
    without [$numberLong] the count decoder, without [deletedCount] the
    delete decoder, without [matchedCount] the update decoder and without
    [insertedIds] the [insertMany] decoder delivers its empty result and
    a malformed-JSON error for the missing key. *)
Theorem missing_member_is_malformed (payload : string) (o : gmap string json) :
  parse_text payload = Some (JObject o) →
  let missing key := Some (mkAppError malformed_json (what (key_not_found key))) in
  (o !! "$numberLong" = None →
   handle_count_response None (Some payload) = (0, missing "$numberLong"))
  ∧ (o !! "deletedCount" = None →
     handle_delete_count_response None (Some payload) = (0, missing "deletedCount"))
  ∧ (o !! "matchedCount" = None →
     handle_update_response None (Some payload)
     = (empty_update_result, missing "matchedCount"))
  ∧ (o !! "insertedIds" = None →
     insert_many_response None (Some payload) = (∅, missing "insertedIds")).
Proof.
  intros Hparse missing.
  unfold handle_count_response, handle_delete_count_response,
    handle_update_response, insert_many_response, parse.
  rewrite Hparse. cbn [bind json_at].
  split_and!; by intros ->.
Qed.

(** X24: an update response whose counts are readable but whose
    [upsertedId] member is present without a string under [$oid] is
    rejected as a whole: the decoder delivers the empty result and a
    malformed-JSON error, and the counts are dropped. *)
Theorem bad_upserted_id_discards_counts
    (payload matched modified : string) (j upserted : json)
    (matched_count modified_count : Z) (x : exception) :
  parse_text payload = Some j →
  read_wrapped j "matchedCount" "$numberInt" = Ok matched →
  stoull matched = Ok matched_count →
  read_wrapped j "modifiedCount" "$numberInt" = Ok modified →
  stoull modified = Ok modified_count →
  json_find j "upsertedId" = Some upserted →
  (let* oid := json_at upserted "$oid" in get_string oid) = Throw x →
  handle_update_response None (Some payload)
  = (empty_update_result, Some (mkAppError malformed_json (what x))).
Proof.
  intros Hparse Hm Hmc Hd Hdc Hfind Hoid.
  apply read_wrapped_Ok in Hm as (f1 & w1 & Hf1 & Hw1 & Hs1).
  apply read_wrapped_Ok in Hd as (f2 & w2 & Hf2 & Hw2 & Hs2).
  unfold handle_update_response, parse. rewrite Hparse. cbn [bind].
  rewrite Hf1. cbn [bind]. rewrite Hw1. cbn [bind]. rewrite Hs1. cbn [bind].
  rewrite Hmc. cbn [bind]. rewrite Hf2. cbn [bind]. rewrite Hw2. cbn [bind].
  rewrite Hs2. cbn [bind]. rewrite Hdc. cbn [bind].
  rewrite Hfind, (json_find_at _ _ _ Hfind). cbn [bind].
  by rewrite Hoid.
Qed.

End Payloads.

(** ** The overloads without options *)

Section Overloads.
Context {env : Collaborators}.
Variable self : RemoteMongoCollection.

(** X25: the overloads that take no options send the element with
    [database], [collection] and the parsed [query] (and [update]) and
    nothing on the envelope but [arguments]; [count] then sends no limit
    either, and the update overloads send [upsert] as [false],
    [update_one] in the element and [update_many] on the envelope. *)
Theorem overloads_send_the_bare_document
    (filter_json update_json : string) (query update : json) :
  parse_text filter_json = Some query →
  parse_text update_json = Some update →
  let queried :=
    map_insert "query" query
      (map_insert "collection" (JString (name self))
         (map_insert "database" (JString (database_name self)) ∅)) in
  let updated := map_insert "update" update queried in
  find_default self filter_json
  = invoke "find" (dump (arguments (JObject queried))) handle_response
  ∧ find_one_default self filter_json
    = invoke "findOne" (dump (arguments (JObject queried))) handle_response
  ∧ count_default self filter_json
    = invoke "count" (dump (arguments (JObject queried))) handle_count_response
  ∧ find_one_and_delete_default self filter_json
    = invoke "findOneAndDelete" (dump (arguments (JObject queried)))
        find_one_and_delete_response
  ∧ find_one_and_update_default self filter_json update_json
    = invoke "findOneAndUpdate" (dump (arguments (JObject updated))) handle_response
  ∧ find_one_and_replace_default self filter_json update_json
    = invoke "findOneAndReplace" (dump (arguments (JObject updated))) handle_response
  ∧ update_one_default self filter_json update_json
    = invoke "updateOne"
        (dump (arguments (JObject (map_insert "upsert" (JBool false) updated))))
        handle_update_response
  ∧ update_many_default self filter_json update_json
    = invoke "updateMany"
        (dump (JObject (map_insert "upsert" (JBool false)
                          {["arguments" := JArray [JObject updated]]})))
        handle_update_response.
Proof.
  intros Hq Hu queried updated. subst queried updated.
  unfold find_default, find_one_default, count_default, find_one_and_delete_default,
    find_one_and_update_default, find_one_and_replace_default,
    update_one_default, update_many_default,
    find, find_one, count, find_one_and_delete, find_one_and_update,
    find_one_and_replace, update_one, update_many.
  unfold_builders_goal. rewrite Hq, Hu.
  cbn [no_find_options no_modify_options
       RemoteFindOptions.limit RemoteFindOptions.projection_json
       RemoteFindOptions.sort_json
       RemoteFindOneAndModifyOptions.projection_json
       RemoteFindOneAndModifyOptions.sort_json
       RemoteFindOneAndModifyOptions.upsert
       RemoteFindOneAndModifyOptions.return_new_document].
  step. split_and!; reflexivity.
Qed.

End Overloads.

(** * The further properties on concrete calls *)

Section ConcreteRequests.
#[local] Existing Instance Sample.collaborators.

(** X4 at [find_one_and_update] on the collection [library.books]. *)
Lemma identity_in_every_document_witness :
  let r := FindOneAndUpdate Sample.title_filter Sample.set_title
             (RemoteFindOneAndModifyOptions.mk (Some Sample.by_title)
                (Some Sample.by_title) true false) in
  let args := Sample.built (request_args Sample.books r) in
  element_field "database" args = Some (JString "library")
  ∧ element_field "collection" args = Some (JString "books").
Proof.
  intros r args.
  apply (identity_in_every_document Sample.books r args).
  vm_compute. reflexivity.
Defined.

(** X5 at [insert_one({"title":"Dune"})]. *)
Lemma filter_is_sent_parsed_witness :
  let r := InsertOne Sample.title_filter in
  let args := Sample.built (request_args Sample.books r) in
  element_field "document" args = parse_text Sample.title_filter.
Proof.
  intros r args.
  apply (filter_is_sent_parsed Sample.books r Sample.title_filter args).
  - reflexivity.
  - vm_compute. reflexivity.
Defined.

(** X6 at [delete_many] with the filter [{]. *)
Lemma malformed_filter_is_a_local_failure_witness :
  perform Sample.books (DeleteMany "{")
  = [completion_block (returned_count 0)
       (Some (mkAppError malformed_json (what (parse_error "{"))))].
Proof.
  apply (malformed_filter_is_a_local_failure Sample.books (DeleteMany "{") "{").
  - reflexivity.
  - vm_compute. reflexivity.
Defined.

(** X7 at [update_one] with the update [{]. *)
Lemma malformed_update_is_a_local_failure_witness :
  perform Sample.books (UpdateOne Sample.title_filter "{" true)
  = [completion_block (returned_update empty_update_result)
       (Some (mkAppError malformed_json (what (parse_error "{"))))].
Proof.
  apply (malformed_update_is_a_local_failure Sample.books
           (UpdateOne Sample.title_filter "{" true) Sample.title_filter "{"
           (JObject {["title" := JString "Dune"]})).
  - reflexivity.
  - vm_compute. reflexivity.
  - reflexivity.
  - vm_compute. reflexivity.
Defined.

(** X8 at [find] with the projection [{] and no sort option. *)
Lemma malformed_projection_is_a_local_failure_witness :
  perform Sample.books
    (Find Sample.title_filter (RemoteFindOptions.mk (Some 5) (Some "{") None))
  = [completion_block (returned_text "")
       (Some (mkAppError malformed_json (what (parse_error "{"))))].
Proof.
  apply (malformed_projection_is_a_local_failure Sample.books
           (Find Sample.title_filter (RemoteFindOptions.mk (Some 5) (Some "{") None))
           Sample.title_filter "{" (JObject {["title" := JString "Dune"]})).
  - reflexivity.
  - vm_compute. reflexivity.
  - intros update_json Hupdate. discriminate Hupdate.
  - reflexivity.
  - vm_compute. reflexivity.
Defined.

(** X9 at [aggregate] with a pipeline whose second stage is [{]. *)
Lemma malformed_stage_is_a_local_failure_witness :
  perform Sample.books (Aggregate ([Sample.set_title] ++ "{" :: [Sample.title_filter]))
  = [completion_block (returned_text "")
       (Some (mkAppError malformed_json (what (parse_error "{"))))].
Proof.
  apply (malformed_stage_is_a_local_failure Sample.books
           (Aggregate ([Sample.set_title] ++ "{" :: [Sample.title_filter]))
           [Sample.set_title] "{" [Sample.title_filter]).
  - by left.
  - apply Forall_cons_2; [| apply Forall_nil_2].
    eexists. vm_compute. reflexivity.
  - vm_compute. reflexivity.
Defined.

(** X10 at a pipeline of two stages. *)
Lemma stages_are_sent_in_order_witness :
  let texts := [Sample.title_filter; Sample.by_title] in
  let parsed := [JObject {["title" := JString "Dune"]}; JObject {["title" := JUInt 1]}] in
  (∃ args, aggregate_args Sample.books texts = Ok args
           ∧ element_field "pipeline" args = Some (JArray parsed)
           ∧ perform Sample.books (Aggregate texts)
             = observe returned_text (invoke "aggregate" (dump args) handle_response))
  ∧ (∃ args, insert_many_args Sample.books texts = Ok args
             ∧ element_field "documents" args = Some (JArray parsed)
             ∧ perform Sample.books (InsertMany texts)
               = observe returned_ids
                   (invoke "insertMany" (dump args) insert_many_response)).
Proof.
  intros texts parsed.
  apply (stages_are_sent_in_order Sample.books texts parsed).
  repeat (apply Forall2_cons; split; [vm_compute; reflexivity |]).
  apply Forall2_nil_2.
Defined.

(** X11 at [find_one_and_replace]. *)
Lemma update_is_sent_parsed_witness :
  let r := FindOneAndReplace Sample.title_filter Sample.set_title no_modify_options in
  let args := Sample.built (request_args Sample.books r) in
  element_field "update" args = parse_text Sample.set_title.
Proof.
  intros r args.
  apply (update_is_sent_parsed Sample.books r Sample.set_title args).
  - reflexivity.
  - vm_compute. reflexivity.
Defined.

(** X12 at [find] with a limit of 5, a projection and a sort order. *)
Lemma find_options_on_the_envelope_witness :
  let options :=
    RemoteFindOptions.mk (Some 5) (Some Sample.by_title) (Some Sample.by_title) in
  let args := Sample.built (find_args Sample.books Sample.title_filter options) in
  outer_field "limit" args = JInt <$> RemoteFindOptions.limit options
  ∧ outer_field "project" args
    = RemoteFindOptions.projection_json options ≫= parse_text
  ∧ (∀ key, key ∈ ["limit"; "project"; "sort"] → element_field key args = None).
Proof.
  intros options args.
  apply (find_options_on_the_envelope Sample.books Sample.title_filter options args).
  left. vm_compute. reflexivity.
Defined.

(** X13 at [find_one_and_replace] with all four modifiers. *)
Lemma replace_modifiers_on_the_envelope_witness :
  let options :=
    RemoteFindOneAndModifyOptions.mk (Some Sample.by_title) (Some Sample.by_title)
      true true in
  let args :=
    Sample.built (find_one_and_replace_args Sample.books Sample.title_filter
                    Sample.set_title options) in
  element_field "update" args = parse_text Sample.set_title
  ∧ (∀ key, key ∈ ["upsert"; "returnNewDocument"; "project"; "sort"] →
            element_field key args = None)
  ∧ outer_field "upsert" args
    = (if RemoteFindOneAndModifyOptions.upsert options then Some (JBool true) else None)
  ∧ outer_field "returnNewDocument" args
    = (if RemoteFindOneAndModifyOptions.return_new_document options
       then Some (JBool true) else None)
  ∧ outer_field "project" args
    = RemoteFindOneAndModifyOptions.projection_json options ≫= parse_text.
Proof.
  intros options args.
  apply (replace_modifiers_on_the_envelope Sample.books Sample.title_filter
           Sample.set_title options args).
  vm_compute. reflexivity.
Defined.

(** X26 at [update_one] with [upsert = true] and at [find_one_and_update]
    with all four modifiers. *)
Lemma modifiers_in_the_element_witness :
  let options :=
    RemoteFindOneAndModifyOptions.mk (Some Sample.by_title) (Some Sample.by_title)
      true true in
  let one_args :=
    Sample.built (update_one_args Sample.books Sample.title_filter Sample.set_title true) in
  let update_args :=
    Sample.built (find_one_and_update_args Sample.books Sample.title_filter
                    Sample.set_title options) in
  element_field "upsert" one_args = Some (JBool true)
  ∧ outer_field "upsert" one_args = None
  ∧ (∀ key, key ∈ ["upsert"; "returnNewDocument"; "project"; "sort"] →
            outer_field key update_args = None)
  ∧ element_field "upsert" update_args
    = (if RemoteFindOneAndModifyOptions.upsert options then Some (JBool true) else None)
  ∧ element_field "returnNewDocument" update_args
    = (if RemoteFindOneAndModifyOptions.return_new_document options
       then Some (JBool true) else None).
Proof.
  intros options one_args update_args.
  apply (modifiers_in_the_element Sample.books Sample.title_filter Sample.set_title
           true options one_args update_args).
  - vm_compute. reflexivity.
  - vm_compute. reflexivity.
Defined.

(** X25 at the filter [{"title":"Dune"}] and the update
    [{"$set":{"title":"Dune"}}]. *)
Lemma overloads_send_the_bare_document_witness :
  let query := JObject {["title" := JString "Dune"]} in
  let update := JObject {["$set" := JObject {["title" := JString "Dune"]}]} in
  let queried :=
    map_insert "query" query
      (map_insert "collection" (JString (name Sample.books))
         (map_insert "database" (JString (database_name Sample.books)) ∅)) in
  let updated := map_insert "update" update queried in
  find_default Sample.books Sample.title_filter
  = invoke "find" (dump (arguments (JObject queried))) handle_response
  ∧ find_one_default Sample.books Sample.title_filter
    = invoke "findOne" (dump (arguments (JObject queried))) handle_response
  ∧ count_default Sample.books Sample.title_filter
    = invoke "count" (dump (arguments (JObject queried))) handle_count_response
  ∧ find_one_and_delete_default Sample.books Sample.title_filter
    = invoke "findOneAndDelete" (dump (arguments (JObject queried)))
        find_one_and_delete_response
  ∧ find_one_and_update_default Sample.books Sample.title_filter Sample.set_title
    = invoke "findOneAndUpdate" (dump (arguments (JObject updated))) handle_response
  ∧ find_one_and_replace_default Sample.books Sample.title_filter Sample.set_title
    = invoke "findOneAndReplace" (dump (arguments (JObject updated))) handle_response
  ∧ update_one_default Sample.books Sample.title_filter Sample.set_title
    = invoke "updateOne"
        (dump (arguments (JObject (map_insert "upsert" (JBool false) updated))))
        handle_update_response
  ∧ update_many_default Sample.books Sample.title_filter Sample.set_title
    = invoke "updateMany"
        (dump (JObject (map_insert "upsert" (JBool false)
                          {["arguments" := JArray [JObject updated]]})))
        handle_update_response.
Proof.
  intros query update.
  apply (overloads_send_the_bare_document Sample.books Sample.title_filter
           Sample.set_title query update).
  - vm_compute. reflexivity.
  - vm_compute. reflexivity.
Defined.

End ConcreteRequests.

Section ConcretePayloads.
#[local] Existing Instance Sample.collaborators.

(** X17 at the second identifier of [{"insertedIds":[{"$oid":"a"},{"$oid":"b"}]}]. *)
Lemma inserted_keys_fit_uint64_witness :
  (insert_many_response None (Some Sample.inserted_payload)).1 !! 1 = Some "b"
  ∧ 0 ≤ 1 < 2 ^ 64.
Proof.
  assert (Hkey : (insert_many_response None (Some Sample.inserted_payload)).1 !! 1
                 = Some "b") by (vm_compute; reflexivity).
  split; [exact Hkey |].
  exact (inserted_keys_fit_uint64 None (Some Sample.inserted_payload) 1 "b" Hkey).
Defined.

(** X18 at [{"insertedIds":[{"$oid":"a","n":1},{"$oid":"b"}]}]. *)
Lemma inserted_ids_ignore_other_members_witness :
  ∃ m, insert_many_response None (Some Replies.annotated_ids_payload) = (m, None)
       ∧ (∀ k : Z, m !! k = if decide (0 ≤ k) then ["a"; "b"] !! Z.to_nat k else None)
       ∧ size m = List.length
                    [JObject (<["n" := JUInt 1]> {["$oid" := JString "a"]});
                     JObject {["$oid" := JString "b"]}].
Proof.
  apply (inserted_ids_ignore_other_members Replies.annotated_ids_payload
           (JObject {["insertedIds" :=
              JArray [JObject (<["n" := JUInt 1]> {["$oid" := JString "a"]});
                      JObject {["$oid" := JString "b"]}]]})).
  - vm_compute. reflexivity.
  - vm_compute. reflexivity.
  - repeat (apply Forall2_cons; split; [vm_compute; reflexivity |]).
    apply Forall2_nil_2.
  - vm_compute. discriminate.
Defined.

(** X19 at [{"insertedIds":[{"$oid":"a"},{"id":"b"}]}]. *)
Lemma one_bad_id_discards_all_witness :
  insert_many_response None (Some Replies.broken_ids_payload)
  = (∅, Some (mkAppError malformed_json (what (key_not_found "$oid")))).
Proof.
  apply (one_bad_id_discards_all Replies.broken_ids_payload
           (JObject {["insertedIds" :=
              JArray ([JObject {["$oid" := JString "a"]}]
                        ++ JObject {["id" := JString "b"]} :: [])]})
           [JObject {["$oid" := JString "a"]}] (JObject {["id" := JString "b"]}) []).
  - vm_compute. reflexivity.
  - vm_compute. reflexivity.
  - apply Forall_cons_2; [| apply Forall_nil_2].
    eexists. vm_compute. reflexivity.
  - vm_compute. reflexivity.
Defined.

(** X20 at the count [-1]. *)
Lemma negative_count_wraps_witness :
  handle_count_response None (Some (Sample.count_payload "-1")) = (2 ^ 64 - 1, None).
Proof.
  apply (negative_count_wraps (Sample.count_payload "-1") "1" 1
           (JObject {["$numberLong" := JString "-1"]})).
  - vm_compute. reflexivity.
  - vm_compute. split; discriminate.
  - vm_compute. reflexivity.
  - vm_compute. reflexivity.
Defined.

(** X21 at the count [42 documents]. *)
Lemma count_ignores_trailing_text_witness :
  handle_count_response None (Some (Sample.count_payload "42 documents")) = (42, None).
Proof.
  apply (count_ignores_trailing_text (Sample.count_payload "42 documents")
           "42" " "%char "documents" 42
           (JObject {["$numberLong" := JString "42 documents"]})).
  - vm_compute. reflexivity.
  - vm_compute. discriminate.
  - vm_compute. reflexivity.
  - vm_compute. reflexivity.
  - vm_compute. reflexivity.
Defined.

(** X28 at the count [42]. *)
Lemma count_within_int_is_decoded_witness :
  handle_count_response None (Some (Sample.count_payload "42")) = (42, None).
Proof.
  apply (count_within_int_is_decoded (Sample.count_payload "42") "42" 42
           (JObject {["$numberLong" := JString "42"]})).
  - vm_compute. reflexivity.
  - vm_compute. discriminate.
  - vm_compute. reflexivity.
  - vm_compute. reflexivity.
Defined.

(** X22 at the payload [<html>]. *)
Lemma unparseable_payload_is_malformed_witness :
  let error := Some (mkAppError malformed_json (what (parse_error "<html>"))) in
  handle_count_response None (Some "<html>") = (0, error)
  ∧ handle_delete_count_response None (Some "<html>") = (0, error)
  ∧ handle_update_response None (Some "<html>") = (empty_update_result, error)
  ∧ insert_many_response None (Some "<html>") = (∅, error).
Proof.
  apply (unparseable_payload_is_malformed "<html>").
  vm_compute. reflexivity.
Defined.

(** X23 at the payload [{"deletedCount":{"$numberInt":"3"}}], read by the
    three decoders whose first member it lacks. *)
Lemma missing_member_is_malformed_witness :
  let payload := Sample.delete_payload "3" in
  let missing key := Some (mkAppError malformed_json (what (key_not_found key))) in
  handle_count_response None (Some payload) = (0, missing "$numberLong")
  ∧ handle_update_response None (Some payload)
    = (empty_update_result, missing "matchedCount")
  ∧ insert_many_response None (Some payload) = (∅, missing "insertedIds").
Proof.
  intros payload missing.
  destruct (missing_member_is_malformed payload
              {["deletedCount" := JObject {["$numberInt" := JString "3"]}]})
    as (Hcount & _ & Hupdate & Hinsert).
  - vm_compute. reflexivity.
  - split_and!.
    + apply Hcount. vm_compute. reflexivity.
    + apply Hupdate. vm_compute. reflexivity.
    + apply Hinsert. vm_compute. reflexivity.
Defined.

(** X24 at an update response with [upsertedId] a plain string. *)
Lemma bad_upserted_id_discards_counts_witness :
  handle_update_response None (Some Replies.bad_upsert_payload)
  = (empty_update_result, Some (mkAppError malformed_json (what type_error))).
Proof.
  apply (bad_upserted_id_discards_counts Replies.bad_upsert_payload "2" "1"
           (JObject (<["upsertedId" := JString "abc"]>
              (<["modifiedCount" := JObject {["$numberInt" := JString "1"]}]>
                 {["matchedCount" := JObject {["$numberInt" := JString "2"]}]})))
           (JString "abc") 2 1).
  - vm_compute. reflexivity.
  - vm_compute. reflexivity.
  - vm_compute. reflexivity.
  - vm_compute. reflexivity.
  - vm_compute. reflexivity.
  - vm_compute. reflexivity.
  - vm_compute. reflexivity.
Defined.

End ConcretePayloads.

Section ServiceDown.
#[local] Existing Instance Replies.offline.

(** X2 at [count] against a service that answers every call with an
    error and a body. *)
Lemma transport_error_reaches_the_caller_witness :
  let r := Count Sample.title_filter 7 in
  let args := Sample.built (request_args Sample.books r) in
  perform Sample.books r
  = [call_function (function_name r) (dump args);
     completion_block (empty_outcome r) (Some Replies.unreachable)].
Proof.
  intros r args.
  apply (transport_error_reaches_the_caller Sample.books r args Replies.unreachable
           (Some (Sample.count_payload "42"))).
  - vm_compute. reflexivity.
  - reflexivity.
Defined.

End ServiceDown.

Section ServiceBabbling.
#[local] Existing Instance Replies.babbling.

(** X3 at [find] against a service that answers [<html>]. *)
Lemma payload_text_is_handed_over_witness :
  let r := Find Sample.title_filter no_find_options in
  let args := Sample.built (request_args Sample.books r) in
  perform Sample.books r
  = [call_function (function_name r) (dump args);
     completion_block (returned_text "<html>") None].
Proof.
  intros r args.
  apply (payload_text_is_handed_over Sample.books r args "<html>").
  - reflexivity.
  - vm_compute. reflexivity.
  - reflexivity.
Defined.

End ServiceBabbling.

(** * The counter of the insertMany decoder beyond INT_MAX *)

Section CounterOverflow.
Context {env : Collaborators}.

(** While the counter stays within [INT_MAX], the loop over a longer
    array is the loop over its first part followed by the loop over the
    rest, started at the index reached. *)
Lemma map_oids_app_small (ids : list string) (rest : list json) :
  ∀ (mapped_oids : gmap Z string) (i : Z),
    0 ≤ i → i + Z.of_nat (List.length ids) ≤ INT_MAX →
    map_oids (((λ id, JObject {["$oid" := JString id]}) <$> ids) ++ rest) mapped_oids i
    = (let* m := map_oids ((λ id, JObject {["$oid" := JString id]}) <$> ids)
                   mapped_oids i in
       map_oids rest m (i + Z.of_nat (List.length ids))).
Proof.
  unfold INT_MAX.
  induction ids as [| id ids IH]; intros mapped_oids i Hi Hlen; widths.
  - cbn [fmap list_fmap app map_oids bind List.length].
    by replace (i + Z.of_nat 0) with i by lia.
  - rewrite fmap_cons. cbn [app map_oids json_at].
    rewrite lookup_singleton_eq. cbn [bind get_string].
    rewrite length_cons in Hlen |- *.
    assert (Hnext : to_int (i + 1) = i + 1).
    { unfold to_int. widths. rewrite Z.mod_small; lia. }
    rewrite Hnext, IH by lia.
    by replace (i + 1 + Z.of_nat (List.length ids))
      with (i + Z.of_nat (S (List.length ids))) by lia.
Qed.

(** An array of [INT_MAX + 2] identifiers: the element at index
    [INT_MAX] is the last one stored under its index; the counter then
    wraps to [INT_MIN], and the element after it is stored under
    [2^64 - 2^31]. *)
Lemma counter_wraps_past_INT_MAX (n : nat) (payload : string) :
  Z.of_nat n = INT_MAX →
  parse_text payload
  = Some (JObject {["insertedIds" :=
            JArray ((λ id, JObject {["$oid" := JString id]})
                      <$> (replicate n "a" ++ ["a"; "a"]))]}) →
  ∃ m, insert_many_response None (Some payload) = (m, None)
       ∧ m !! (2 ^ 64 - 2 ^ 31) = Some "a".
Proof.
  intros Hn Hparse.
  destruct (map_oids_lookup (replicate n "a") ∅ 0) as (m1 & Hm1 & Hlookup).
  { done. }
  { rewrite length_replicate. lia. }
  { done. }
  assert (Hfar : ∀ k, Z.of_nat n < k → m1 !! k = None).
  { intros k Hk. rewrite Hlookup. unfold INT_MAX in Hn.
    rewrite decide_True by lia.
    apply lookup_ge_None_2. rewrite length_replicate. lia. }
  exists (map_insert (2 ^ 64 - 2 ^ 31) "a" (map_insert INT_MAX "a" m1)). split.
  - unfold insert_many_response, parse. rewrite Hparse. cbn [bind json_at].
    rewrite lookup_singleton_eq. cbn [bind get_vector].
    rewrite fmap_app, map_oids_app_small, Hm1
      by (rewrite ?length_replicate; lia).
    rewrite length_replicate, Hn. cbn [bind fmap list_fmap map_oids json_at].
    rewrite !lookup_singleton_eq. cbn [bind get_string].
    replace (to_uint64 (0 + INT_MAX)) with INT_MAX by (vm_compute; reflexivity).
    replace (to_uint64 (to_int (0 + INT_MAX + 1))) with (2 ^ 64 - 2 ^ 31)
      by (vm_compute; reflexivity).
    done.
  - unfold INT_MAX in *. widths.
    apply lookup_map_insert_fresh.
    rewrite lookup_map_insert_ne by lia. apply Hfar. lia.
Qed.

(** With that array the statement of C7 without a bound is false: the
    mapping has an entry under [2^64 - 2^31], and the array has no
    element at that index. *)
Lemma unbounded_indices_fail (n : nat) (ids : list string) (payload : string) :
  Z.of_nat n = INT_MAX →
  ids = replicate n "a" ++ ["a"; "a"] →
  parse_text payload
  = Some (JObject {["insertedIds" :=
            JArray ((λ id, JObject {["$oid" := JString id]}) <$> ids)]}) →
  ¬ ∃ m, insert_many_response None (Some payload) = (m, None)
         ∧ ∀ k : Z, m !! k = if decide (0 ≤ k) then ids !! Z.to_nat k else None.
Proof.
  intros Hn -> Hparse (m & Hm & Hall).
  destruct (counter_wraps_past_INT_MAX n payload Hn Hparse) as (m' & Hm' & Hkey).
  rewrite Hm' in Hm. injection Hm as <-.
  specialize (Hall (2 ^ 64 - 2 ^ 31)). rewrite Hkey in Hall.
  rewrite decide_True in Hall by (widths; lia).
  symmetry in Hall. apply lookup_lt_Some in Hall.
  rewrite length_app, length_replicate in Hall. cbn [List.length] in Hall.
  unfold INT_MAX in Hn. widths. lia.
Qed.

End CounterOverflow.

